(** * job-match-scanner: the scorer, the aggregator and the ranker of
      [scanner.py], embedded as Rocq functions, with the properties of its
      specification.

    Conventions of the embedding.
    - A Python [str] is a [string] whose characters are the code points
      U+0000 to U+00FF; on them [str.lower], [str.isspace] and the classes
      [\w], [\s] and [\b] of [re] are those of CPython on [str], which
      are the Unicode ones.
    - A Python [int] is a [Z].
    - A fetched hit (a JSON object read with [dict.get]) is a record of
      optional string fields: [None] stands for a key that is absent.
    - [seen_ids] is a finite set of strings, [all_listings] a list that only
      grows at its end; the loop of [main] is a left fold over the hits. *)

From Stdlib Require Import ZArith Ascii String List Bool Lia.
From stdpp Require Import base tactics option list sorting gmap strings.

Local Open Scope Z_scope.

#[local] Set Warnings "-clear-no-such-hyp".

(** ** Characters and strings as Python sees them *)

Module Py.

Definition code (c : ascii) : N := N_of_ascii c.

Definition between (lo hi : N) (c : ascii) : bool :=
  ((lo <=? code c) && (code c <=? hi))%N.

Definition at_code (n : N) (c : ascii) : bool := (code c =? n)%N.

(** The characters that [str.lower] changes: the letters A to Z, and the
    capital letters of Latin-1, U+00C0 to U+00DE without the sign U+00D7. *)
Definition is_upper (c : ascii) : bool :=
  between 65 90 c || between 192 214 c || between 216 222 c.
Definition is_lower (c : ascii) : bool := between 97 122 c.
Definition is_digit (c : ascii) : bool := between 48 57 c.

(** [\w] on a [str]: the underscore and the characters on which
    [str.isalnum] holds. Beyond ASCII these are the letters U+00AA, U+00B5,
    U+00BA, U+00C0 to U+00FF without U+00D7 and U+00F7, the superscript
    digits U+00B2, U+00B3, U+00B9 and the fractions U+00BC to U+00BE. *)
Definition is_word (c : ascii) : bool :=
  is_digit c || between 65 90 c || is_lower c || Ascii.eqb c "_"
  || at_code 170 c || between 178 179 c || at_code 181 c || between 185 186 c
  || between 188 190 c || between 192 214 c || between 216 246 c
  || between 248 255 c.

(** [\s] on a [str], and [str.isspace]: TAB, LF, VT, FF, CR, the separators
    0x1c-0x1f, the space, NEL (U+0085) and the no-break space (U+00A0). *)
Definition is_space (c : ascii) : bool :=
  between 9 13 c || between 28 32 c || at_code 133 c || at_code 160 c.

Definition lower_char (c : ascii) : ascii :=
  if is_upper c then ascii_of_N (code c + 32) else c.

(** [s.lower()] *)
Fixpoint lower (s : string) : string :=
  match s with
  | EmptyString => EmptyString
  | String c s' => String (lower_char c) (lower s')
  end.

(** [len(s)] *)
Definition len (s : string) : Z := Z.of_nat (String.length s).

(** [s.startswith(w)] *)
Fixpoint startswith (w s : string) : bool :=
  match w, s with
  | EmptyString, _ => true
  | String a w', String b s' => Ascii.eqb a b && startswith w' s'
  | String _ _, EmptyString => false
  end.

(** [w in s] on strings: [w] occurs in [s] as a substring. *)
Fixpoint contains (w s : string) : bool :=
  startswith w s ||
  match s with
  | EmptyString => false
  | String _ s' => contains w s'
  end.

(** [any(w in s for w in ws)] *)
Definition any_in (ws : list string) (s : string) : bool :=
  existsb (fun w => contains w s) ws.

(** [s[:n]] for a non-negative constant [n]. *)
Fixpoint prefix_of (n : nat) (s : string) : string :=
  match n, s with
  | S n', String c s' => String c (prefix_of n' s')
  | _, _ => EmptyString
  end.

(** [l[:n]] on a list, for any integer [n]: a negative [n] counts from
    the end of the list. *)
Definition slice_to {A} (n : Z) (l : list A) : list A :=
  if 0 <=? n then take (Z.to_nat n) l
  else take (Z.to_nat (Z.of_nat (length l) + n)) l.

(** [a or b] on optional strings: the first one that is present and not
    empty. *)
Definition or_else (a : option string) (b : string) : string :=
  match a with
  | Some (String c s) => String c s
  | _ => b
  end.

End Py.

(** ** The fragment of [re] that the scanner uses *)

Module Re.

(** The atoms of the patterns built in [score_listing]: the assertion [\b]
    and a literal character. *)
Inductive atom : Type :=
| WordBoundary
| Literal (c : ascii).

Definition pattern : Type := list atom.

(** [re.escape(s)]: the pattern that matches [s] and nothing else. *)
Fixpoint escape (s : string) : pattern :=
  match s with
  | EmptyString => []
  | String c s' => Literal c :: escape s'
  end.

Definition head_char (s : string) : option ascii :=
  match s with
  | EmptyString => None
  | String c _ => Some c
  end.

Definition word_side (c : option ascii) : bool :=
  match c with
  | Some c => Py.is_word c
  | None => false
  end.

(** [\b] holds between [prev] and [next] when exactly one of them is a
    word character; the outside of the string counts as a non-word. *)
Definition at_boundary (prev next : option ascii) : bool :=
  xorb (word_side prev) (word_side next).

(** Match the atoms at the current position; [prev] is the character just
    before it. *)
Fixpoint match_here (prev : option ascii) (p : pattern) (s : string) : bool :=
  match p with
  | [] => true
  | WordBoundary :: p' => at_boundary prev (head_char s) && match_here prev p' s
  | Literal c :: p' =>
      match s with
      | String d s' => Ascii.eqb c d && match_here (Some d) p' s'
      | EmptyString => false
      end
  end.

Fixpoint search_from (prev : option ascii) (p : pattern) (s : string) : bool :=
  match_here prev p s ||
  match s with
  | EmptyString => false
  | String c s' => search_from (Some c) p s'
  end.

(** [re.search(p, s) is not None] *)
Definition search (p : pattern) (s : string) : bool := search_from None p s.

End Re.

(** ** The scorer *)

Definition IAN_SKILLS : list string :=
  [ "python"; "fastapi"; "react"; "typescript"; "xgboost"; "yolov8"; "nlp";
    "computer vision"; "aws"; "docker"; "postgresql"; "redis"; "claude";
    "langchain"; "scikit-learn"; "pytorch"; "tensorflow"; "kubernetes";
    "sql"; "git"; "rest api"; "microservices"; "llm"; "openai" ].

Definition SENIOR_MARKERS : list string := ["senior"; "lead"; "staff"].
Definition JUNIOR_MARKERS : list string := ["junior"; "intern"; "entry"].

(** [pattern = r"\b" + re.escape(skill) + r"\b"] *)
Definition skill_pattern (skill : string) : Re.pattern :=
  [Re.WordBoundary] ++ Re.escape skill ++ [Re.WordBoundary].

Definition skill_found (text_lower skill : string) : bool :=
  Re.search (skill_pattern skill) text_lower.

(** The loop [for skill in IAN_SKILLS: if re.search(...): matched.append(skill)],
    started from [matched]. *)
Definition match_loop (text_lower : string) (skills matched : list string)
  : list string :=
  fold_left
    (fun matched skill =>
       if skill_found text_lower skill then matched ++ [skill] else matched)
    skills matched.

Definition matched_skills (text : string) : list string :=
  match_loop (Py.lower text) IAN_SKILLS [].

(** The running [score] after each statement of [score_listing]. *)
Definition score_skills (text : string) : Z :=
  Z.of_nat (length (matched_skills text)) * 10.

Definition score_senior (text : string) : Z :=
  if Py.any_in SENIOR_MARKERS (Py.lower text)
  then score_skills text + 5 else score_skills text.

Definition score_junior (text : string) : Z :=
  if Py.any_in JUNIOR_MARKERS (Py.lower text)
  then score_senior text - 10 else score_senior text.

Definition score_remote (text : string) : Z :=
  if Py.contains "remote" (Py.lower text)
  then score_junior text + 5 else score_junior text.

Definition score_listing (text : string) : Z * list string :=
  (Z.max 0 (score_remote text), matched_skills text).

(** ** The text normalizer *)

(** Index of the first [>] of [s]. *)
Fixpoint find_close (s : string) : option nat :=
  match s with
  | EmptyString => None
  | String c s' => if Ascii.eqb c ">" then Some O else S <$> find_close s'
  end.

(** [s] is the text right after a [<]. When [<[^>]+>] matches from that [<],
    the number of characters of the match that lie in [s]: at least one
    character other than [>], up to and including the first [>]. *)
Definition tag_len (s : string) : option nat :=
  match s with
  | EmptyString => None
  | String c s' =>
      if Ascii.eqb c ">" then None else (fun n => S (S n)) <$> find_close s'
  end.

(** [re.sub(r"<[^>]+>", " ", s)], scanning from the left; [skip] counts the
    characters of the current match that are still to be dropped. *)
Fixpoint sub_tags (skip : nat) (s : string) : string :=
  match s with
  | EmptyString => EmptyString
  | String c s' =>
      match skip with
      | S k => sub_tags k s'
      | O =>
          if Ascii.eqb c "<" then
            match tag_len s' with
            | Some n => String " " (sub_tags n s')
            | None => String c (sub_tags O s')
            end
          else String c (sub_tags O s')
      end
  end.

(** [re.sub(r"\s+", " ", s)]; [in_run] tells that the previous character
    belonged to the whitespace run being replaced. *)
Fixpoint sub_spaces (in_run : bool) (s : string) : string :=
  match s with
  | EmptyString => EmptyString
  | String c s' =>
      if Py.is_space c then
        if in_run then sub_spaces true s' else String " " (sub_spaces true s')
      else String c (sub_spaces false s')
  end.

Fixpoint lstrip (s : string) : string :=
  match s with
  | EmptyString => EmptyString
  | String c s' => if Py.is_space c then lstrip s' else s
  end.

Fixpoint rstrip (s : string) : string :=
  match s with
  | EmptyString => EmptyString
  | String c s' =>
      match rstrip s' with
      | EmptyString => if Py.is_space c then EmptyString else String c EmptyString
      | r => String c r
      end
  end.

(** [s.strip()] *)
Definition strip (s : string) : string := rstrip (lstrip s).

(** [clean_text(html)]; [None] is Python's [None], which [html or ""]
    replaces by the empty string. *)
Definition clean_text (html : option string) : string :=
  let clean := sub_tags O (Py.or_else html "") in
  strip (sub_spaces false clean).

Definition build_hn_url (object_id : string) : string :=
  "https://news.ycombinator.com/item?id=" +:+ object_id.

(** ** Hits and scored listings *)

Module Hit.
Record t : Type := mk {
  objectID : option string;
  comment_text : option string;
  story_text : option string;
  author : option string;
  created_at : option string
}.
End Hit.

Module Listing.
Record t : Type := mk {
  id : string;
  score : Z;
  matched_skills : list string;
  snippet : string;
  url : string;
  author : string;
  created_at : string
}.
End Listing.

(** ** The aggregation loop of [main] *)

Record scan : Type := mkScan {
  seen_ids : gset string;
  all_listings : list Listing.t;
  stderr : list string
}.

Definition scan_start : scan :=
  {| seen_ids := ∅; all_listings := []; stderr := [] |}.

(** [hit.get("objectID", "")] *)
Definition hit_id (hit : Hit.t) : string := default "" (Hit.objectID hit).

(** [clean_text(hit.get("comment_text") or hit.get("story_text") or "")] *)
Definition hit_text (hit : Hit.t) : string :=
  let raw := Py.or_else (Hit.comment_text hit)
               (Py.or_else (Hit.story_text hit) "") in
  clean_text (Some raw).

Definition make_listing (hit : Hit.t) : Listing.t :=
  let obj_id := hit_id hit in
  let text := hit_text hit in
  let '(score, matched) := score_listing text in
  {| Listing.id := obj_id;
     Listing.score := score;
     Listing.matched_skills := matched;
     Listing.snippet := Py.prefix_of 300 text;
     Listing.url := build_hn_url obj_id;
     Listing.author := default "" (Hit.author hit);
     Listing.created_at := default "" (Hit.created_at hit) |}.

(** One iteration of [for hit in hits]. *)
Definition process_hit (st : scan) (hit : Hit.t) : scan :=
  let obj_id := hit_id hit in
  if decide (obj_id ∈ seen_ids st) then st
  else
    let seen := seen_ids st ∪ {[obj_id]} in
    let text := hit_text hit in
    if Py.len text <? 50 then
      {| seen_ids := seen; all_listings := all_listings st; stderr := stderr st |}
    else
      let '(score, matched) := score_listing text in
      if score <=? 0 then
        {| seen_ids := seen; all_listings := all_listings st; stderr := stderr st |}
      else
        {| seen_ids := seen;
           all_listings := all_listings st ++ [make_listing hit];
           stderr := stderr st |}.

Definition process_hits (st : scan) (hits : list Hit.t) : scan :=
  fold_left process_hit hits st.

(** ** The fetch wrapper *)

(** A computation that returns a value or raises an [Exception] whose
    [str()] is the given message. *)
Inductive raising (A : Type) : Type :=
| Return (a : A)
| Raise (e : string).
Arguments Return {A} a.
Arguments Raise {A} e.

#[export] Instance raising_ret : MRet raising := fun A a => Return a.

#[export] Instance raising_bind : MBind raising := fun A B k m =>
  match m with
  | Return a => k a
  | Raise e => Raise e
  end.

(** What [resp.json()] can decode to: a JSON object, of which only the
    ["hits"] key is read, or a value without a [get] method, on which
    [data.get] raises the given [AttributeError]. *)
Inductive json_data : Type :=
| JsonObject (hits : option (list Hit.t))
| JsonOther (e : string).

Record response : Type := mkResponse {
  raise_for_status : raising unit;
  json : raising json_data
}.

(** [data.get("hits", [])] *)
Definition get_hits (data : json_data) : raising (list Hit.t) :=
  match data with
  | JsonObject hits => Return (default [] hits)
  | JsonOther e => Raise e
  end.

Definition KEYWORDS : list string :=
  ["data scientist"; "ML engineer"; "AI engineer"; "machine learning";
   "deep learning"].

Section Scanner.

(** The remote search endpoint: [requests.get(HN_SEARCH_URL, params,
    timeout=15)] for a query and a page size. *)
Variable requests_get : string -> Z -> raising response.

(** The body of the [try] of [fetch_hn_jobs]. *)
Definition try_fetch (query : string) (limit : Z) : raising (list Hit.t) :=
  resp ← requests_get query limit;
  _ ← raise_for_status resp;
  data ← json resp;
  get_hits data.

Definition warning (query e : string) : string :=
  "[warn] HN fetch failed for '" +:+ query +:+ "': " +:+ e.

(** [fetch_hn_jobs(query, limit)]: the hits, and what was printed on
    [sys.stderr]. *)
Definition fetch_hn_jobs (query : string) (limit : Z)
  : list Hit.t * list string :=
  match try_fetch query limit with
  | Return hits => (hits, [])
  | Raise e => ([], [warning query e])
  end.

(** One iteration of [for keyword in args.keywords]. *)
Definition scan_keyword (limit : Z) (st : scan) (keyword : string) : scan :=
  let '(hits, printed) := fetch_hn_jobs keyword limit in
  process_hits
    {| seen_ids := seen_ids st; all_listings := all_listings st;
       stderr := stderr st ++ printed |}
    hits.

Definition scan_keywords (limit : Z) (keywords : list string) : scan :=
  fold_left (scan_keyword limit) keywords scan_start.

End Scanner.

(** ** The ranker *)

(** [all_listings.sort(key=lambda x: x["score"], reverse=True)]: the sort of
    Python lists is stable, also with [reverse=True]. It is modelled by the
    insertion sort that puts an element in front of the first one whose
    score is not greater. *)
Fixpoint insert_desc (x : Listing.t) (l : list Listing.t) : list Listing.t :=
  match l with
  | [] => [x]
  | y :: l' =>
      if Listing.score x <? Listing.score y then y :: insert_desc x l'
      else x :: y :: l'
  end.

Definition sort_desc (l : list Listing.t) : list Listing.t :=
  foldr insert_desc [] l.

(** [top_results = all_listings[:args.top]] after the sort. *)
Definition rank (top : Z) (listings : list Listing.t) : list Listing.t :=
  Py.slice_to top (sort_desc listings).

(** The [top_results] of [main] for the parsed command line. *)
Definition top_results (requests_get : string -> Z -> raising response)
    (keywords : list string) (limit top : Z) : list Listing.t :=
  rank top (all_listings (scan_keywords requests_get limit keywords)).

Definition default_top : Z := 10.
Definition default_limit : Z := 50.

(** ** The vocabulary of the specification *)

(** The last character of [w], or [prev] when [w] is empty. *)
Fixpoint last_char (prev : option ascii) (w : string) : option ascii :=
  match w with
  | EmptyString => prev
  | String c w' => last_char (Some c) w'
  end.

(** [w] occurs in [s] as a substring. *)
Definition occurs_in (w s : string) : Prop :=
  ∃ pre post, s = pre +:+ w +:+ post.

(** [w] occurs in [s] as a whole word or phrase: the occurrence is neither
    preceded nor followed by a word character. *)
Definition whole_word_in (w s : string) : Prop :=
  ∃ pre post, s = pre +:+ w +:+ post
    ∧ Re.word_side (last_char None pre) = false
    ∧ Re.word_side (Re.head_char post) = false.

(** A phrase that begins and ends with a word character. *)
Definition word_ended (w : string) : bool :=
  Re.word_side (Re.head_char w) && Re.word_side (last_char None w).

(** The filters that a hit passes to become a listing. *)
Definition long_enough (hit : Hit.t) : bool := 50 <=? Py.len (hit_text hit).

Definition scores_positive (hit : Hit.t) : bool :=
  0 <? fst (score_listing (hit_text hit)).

Definition qualifies (hit : Hit.t) : bool :=
  long_enough hit && scores_positive hit.

(** The hits that reach the filters: the first hit of each identifier that
    is not in [seen] yet. *)
Fixpoint first_occurrences (seen : gset string) (hits : list Hit.t)
  : list Hit.t :=
  match hits with
  | [] => []
  | hit :: hits' =>
      if decide (hit_id hit ∈ seen) then first_occurrences seen hits'
      else hit :: first_occurrences (seen ∪ {[hit_id hit]}) hits'
  end.

(** The first hit of [hits] that bears the identifier [x]. *)
Definition first_with_id (x : string) (hits : list Hit.t) : option Hit.t :=
  List.find (fun hit => bool_decide (hit_id hit = x)) hits.

(** The listings of [l] that bear the identifier [x]. *)
Definition with_id (x : string) (l : list Listing.t) : list Listing.t :=
  List.filter (fun y => bool_decide (Listing.id y = x)) l.

(** The listings of [l] whose score is [s]. *)
Definition with_score (s : Z) (l : list Listing.t) : list Listing.t :=
  List.filter (fun y => Listing.score y =? s) l.

(** Scores in descending order. *)
Definition desc (x y : Listing.t) : Prop := Listing.score y ≤ Listing.score x.

(** All the hits of a run, in the order in which [main] meets them. *)
Definition all_hits (requests_get : string -> Z -> raising response)
    (limit : Z) (keywords : list string) : list Hit.t :=
  concat (map (fun keyword => fst (fetch_hn_jobs requests_get keyword limit))
            keywords).

(** ** Sample inputs *)

Module Sample.

(** A comment hit with an identifier and a text. *)
Definition comment (i text : string) : Hit.t :=
  {| Hit.objectID := Some i; Hit.comment_text := Some text;
     Hit.story_text := None; Hit.author := Some "pg";
     Hit.created_at := Some "2024-01-01T00:00:00Z" |}.

(** A comment hit without the [objectID] key. *)
Definition anonymous (text : string) : Hit.t :=
  {| Hit.objectID := None; Hit.comment_text := Some text;
     Hit.story_text := None; Hit.author := None; Hit.created_at := None |}.

(** 49 and 50 characters, both naming python, sql and docker. *)
Definition text49 : string :=
  "We build data tools with Python, SQL and Docker!!".
Definition text50 : string :=
  "We build data tools with Python, SQL and Docker!!!".

Definition good_text : string :=
  "<p>Backend role: Python, PostgreSQL and Docker on AWS, in one team.</p>".
Definition short_text : string := "Too short: python".

Definition ok (hits : list Hit.t) : raising response :=
  Return {| raise_for_status := Return ();
            json := Return (JsonObject (Some hits)) |}.

(** The identifier 7 comes back for two keywords: first with a short
    text, then with a text that passes both filters. *)
Definition net_dup (query : string) (limit : Z) : raising response :=
  if bool_decide (query = "data scientist")
  then ok [comment "7" short_text]
  else ok [comment "7" good_text].

(** The first keyword fails in each of the four ways; the last one
    answers. *)
Definition net_failing (query : string) (limit : Z) : raising response :=
  if bool_decide (query = "data scientist") then
    Raise "Connection refused"
  else if bool_decide (query = "ML engineer") then
    Return {| raise_for_status := Raise "503 Server Error";
              json := Return (JsonObject None) |}
  else if bool_decide (query = "AI engineer") then
    Return {| raise_for_status := Return ();
              json := Raise "Expecting value: line 1 column 1 (char 0)" |}
  else if bool_decide (query = "machine learning") then
    Return {| raise_for_status := Return ();
              json := Return
                (JsonOther "'list' object has no attribute 'get'") |}
  else ok [comment "1" good_text].

(** A candidate of the ranker with an identifier and a score. *)
Definition candidate (i : string) (s : Z) : Listing.t :=
  {| Listing.id := i; Listing.score := s; Listing.matched_skills := [];
     Listing.snippet := ""; Listing.url := build_hn_url i;
     Listing.author := ""; Listing.created_at := "" |}.

Definition ten_candidates : list Listing.t :=
  [candidate "a" 20; candidate "b" 50; candidate "c" 10; candidate "d" 50;
   candidate "e" 30; candidate "f" 40; candidate "g" 10; candidate "h" 20;
   candidate "i" 40; candidate "j" 5].

End Sample.

(** ** Shapes of text and more inputs *)

(** No [<] of [s] opens a match of [<[^>]+>]. *)
Fixpoint tagless (s : string) : bool :=
  match s with
  | EmptyString => true
  | String c s' =>
      (negb (Ascii.eqb c "<") || bool_decide (tag_len s' = None))
      && tagless s'
  end.

(** Every whitespace character of [s] is a space, and no two of them are
    neighbours; [after_space] tells that the character before [s] is
    whitespace. *)
Fixpoint single_spaced (after_space : bool) (s : string) : bool :=
  match s with
  | EmptyString => true
  | String c s' =>
      if Py.is_space c
      then Ascii.eqb c " " && negb after_space && single_spaced true s'
      else single_spaced false s'
  end.

Definition space_side (c : option ascii) : bool :=
  match c with
  | Some c => Py.is_space c
  | None => false
  end.

(** [s] neither begins nor ends with whitespace. *)
Definition trimmed (s : string) : bool :=
  negb (space_side (Re.head_char s))
  && negb (space_side (last_char None s)).

(** [s] holds whitespace only. *)
Fixpoint blank (s : string) : bool :=
  match s with
  | EmptyString => true
  | String c s' => Py.is_space c && blank s'
  end.

(** [s] holds a markup tag: a [<], then one character or more without any
    [>], then a [>]. *)
Definition has_tag (s : string) : Prop :=
  ∃ pre body post,
    s = pre +:+ String "<" (body +:+ String ">" post)
    ∧ body ≠ "" ∧ find_close body = None.

(** The text that [main] hands to [clean_text] for a hit. *)
Definition hit_raw (hit : Hit.t) : string :=
  Py.or_else (Hit.comment_text hit) (Py.or_else (Hit.story_text hit) "").

(** What the keyword loop prints on [sys.stderr], fetch by fetch. *)
Definition all_warnings (requests_get : string -> Z -> raising response)
    (limit : Z) (keywords : list string) : list string :=
  concat (map (fun keyword => snd (fetch_hn_jobs requests_get keyword limit))
            keywords).

Module Demo.

(** An endpoint that is down. *)
Definition net_down (query : string) (limit : Z) : raising response :=
  Raise "Connection refused".

(** A story hit: no comment text, the text under [story_text]. *)
Definition story (i text : string) : Hit.t :=
  {| Hit.objectID := Some i; Hit.comment_text := None;
     Hit.story_text := Some text; Hit.author := None;
     Hit.created_at := None |}.

(** A hit with an identifier and no text at all. *)
Definition bare (i : string) : Hit.t :=
  {| Hit.objectID := Some i; Hit.comment_text := None;
     Hit.story_text := None; Hit.author := None; Hit.created_at := None |}.

Definition markup : string :=
  "  <p>Senior   <b>Python</b> engineer,
   remote &amp; friendly; a < b and x > y </p> ".

End Demo.

(** ** Strings *)

#[local] Arguments String.append !_ _ / : simpl nomatch.

Lemma append_empty_r (s : string) : s +:+ "" = s.
Proof. induction s as [|c s IH]; simpl; [done | by rewrite IH]. Qed.

Lemma append_assoc (a b c : string) : (a +:+ b) +:+ c = a +:+ b +:+ c.
Proof. induction a as [|x a IH]; simpl; [done | by rewrite IH]. Qed.

Lemma lower_append (a b : string) :
  Py.lower (a +:+ b) = Py.lower a +:+ Py.lower b.
Proof. induction a as [|x a IH]; simpl; [done | by rewrite IH]. Qed.

Lemma ascii_eqb_true (a b : ascii) : Ascii.eqb a b = true ↔ a = b.
Proof. apply Ascii.eqb_eq. Qed.

Lemma startswith_spec (w s : string) :
  Py.startswith w s = true ↔ ∃ post, s = w +:+ post.
Proof.
  revert s; induction w as [|a w IH]; intros s; simpl.
  - split; [intros _; by exists s | done].
  - destruct s as [|b s].
    + split; [done | intros [post Hp]; discriminate].
    + rewrite andb_true_iff, ascii_eqb_true, IH. split.
      * intros [-> [post ->]]. by exists post.
      * intros [post Hp]. injection Hp as -> ->. eauto.
Qed.

Lemma contains_spec (w s : string) :
  Py.contains w s = true ↔ occurs_in w s.
Proof.
  unfold occurs_in. induction s as [|c s IH]; simpl.
  - rewrite orb_false_r, startswith_spec. split.
    + intros [post Hp]. by exists "", post.
    + intros [[|x pre] [post Hp]]; [by exists post | discriminate].
  - rewrite orb_true_iff, startswith_spec, IH. split.
    + intros [[post Hp] | (pre & post & ->)].
      * by exists "", post.
      * by exists (String c pre), post.
    + intros [[|x pre] [post Hp]].
      * left. by exists post.
      * right. simpl in Hp. injection Hp as -> ->. by exists pre, post.
Qed.

(** A phrase that is already lower-case and occurs in the text as written
    occurs in the lower-cased text. *)
Lemma contains_lower (w text : string) :
  Py.lower w = w → Py.contains w text = true →
  Py.contains w (Py.lower text) = true.
Proof.
  rewrite !contains_spec. intros Hw (pre & post & ->).
  exists (Py.lower pre), (Py.lower post).
  by rewrite !lower_append, Hw.
Qed.

(** ** The regular expressions of the scorer *)

Lemma match_here_escape (prev : option ascii) (w : string) (p : Re.pattern)
    (s : string) :
  Re.match_here prev (Re.escape w ++ p) s = true
  ↔ ∃ rest, s = w +:+ rest ∧ Re.match_here (last_char prev w) p rest = true.
Proof.
  revert prev s; induction w as [|c w IH]; intros prev s; simpl.
  - split; [intros H; by exists s | by intros (rest & -> & H)].
  - destruct s as [|d s].
    + split; [done | by intros (rest & Hr & _)].
    + rewrite andb_true_iff, ascii_eqb_true, IH. split.
      * intros (-> & rest & -> & H). by exists rest.
      * intros (rest & Hr & H). injection Hr as -> ->. eauto.
Qed.

Lemma search_from_spec (prev : option ascii) (p : Re.pattern) (s : string) :
  Re.search_from prev p s = true
  ↔ ∃ pre post, s = pre +:+ post
      ∧ Re.match_here (last_char prev pre) p post = true.
Proof.
  revert prev; induction s as [|c s IH]; intros prev; simpl.
  - rewrite orb_false_r. split.
    + intros H. by exists "", "".
    + intros ([|x pre] & post & Hs & H); [|discriminate].
      simpl in Hs. by subst post.
  - rewrite orb_true_iff, IH. split.
    + intros [H | (pre & post & -> & H)].
      * by exists "", (String c s).
      * by exists (String c pre), post.
    + intros ([|x pre] & post & Hs & H); simpl in Hs.
      * left. by subst post.
      * right. injection Hs as -> ->. by exists pre, post.
Qed.

(** What [re.search(r"\b" + re.escape(skill) + r"\b", s)] finds: an
    occurrence of [skill] with the assertion [\b] true on both sides. *)
Lemma skill_found_spec (s skill : string) :
  skill_found s skill = true
  ↔ ∃ pre post, s = pre +:+ skill +:+ post
      ∧ Re.at_boundary (last_char None pre) (Re.head_char (skill +:+ post)) = true
      ∧ Re.at_boundary (last_char (last_char None pre) skill)
          (Re.head_char post) = true.
Proof.
  unfold skill_found, Re.search, skill_pattern. rewrite search_from_spec.
  split.
  - intros (pre & rest & -> & H). simpl in H.
    apply andb_true_iff in H as [Hb H].
    apply match_here_escape in H as (post & -> & H). simpl in H.
    rewrite andb_true_r in H. by exists pre, post.
  - intros (pre & post & -> & Hb & He). exists pre, (skill +:+ post).
    split; [done|]. simpl. rewrite Hb. simpl.
    apply match_here_escape. exists post. split; [done|].
    simpl. by rewrite He.
Qed.

Lemma last_char_word (prev : option ascii) (w : string) :
  Re.word_side (last_char None w) = true →
  last_char prev w = last_char None w.
Proof.
  destruct w as [|c w]; simpl; [done|]. intros _.
  generalize (Some c). clear c. induction w as [|d w IH]; simpl; eauto.
Qed.

Lemma head_char_append (w post : string) :
  Re.word_side (Re.head_char w) = true →
  Re.head_char (w +:+ post) = Re.head_char w.
Proof. by destruct w. Qed.

(** For a phrase that begins and ends with a word character, the pattern
    finds exactly its whole-word occurrences. *)
Lemma skill_found_whole_word (s skill : string) :
  word_ended skill = true →
  skill_found s skill = true ↔ whole_word_in skill s.
Proof.
  unfold word_ended, whole_word_in. intros [Hh Hl]%andb_true_iff.
  rewrite skill_found_spec. unfold Re.at_boundary.
  split; intros (pre & post & -> & H1 & H2); exists pre, post;
    (split; [done|]).
  - rewrite head_char_append, Hh in H1 by done.
    rewrite (last_char_word _ skill Hl), Hl in H2.
    split; [by destruct (Re.word_side (last_char None pre))
           | by destruct (Re.word_side (Re.head_char post))].
  - rewrite head_char_append, Hh by done.
    rewrite (last_char_word (last_char None pre) skill Hl), Hl.
    by rewrite H1, H2.
Qed.

Lemma skills_word_ended (skill : string) :
  skill ∈ IAN_SKILLS → word_ended skill = true.
Proof.
  intros H. assert (Hall : forallb word_ended IAN_SKILLS = true) by done.
  rewrite forallb_forall in Hall. apply Hall. by apply list_elem_of_In.
Qed.

Lemma whole_word_occurs (w s : string) : whole_word_in w s → occurs_in w s.
Proof. intros (pre & post & -> & _). by exists pre, post. Qed.

(** ** The scorer *)

#[local] Arguments skill_found : simpl never.
#[local] Arguments matched_skills : simpl never.
#[local] Arguments score_skills : simpl never.
#[local] Arguments score_listing : simpl never.

Lemma match_loop_filter (text_lower : string) (skills matched : list string) :
  match_loop text_lower skills matched
  = matched ++ List.filter (skill_found text_lower) skills.
Proof.
  unfold match_loop. revert matched.
  induction skills as [|skill skills IH]; intros matched; simpl.
  - by rewrite app_nil_r.
  - rewrite IH. destruct (skill_found text_lower skill); [|done].
    by rewrite <- app_assoc.
Qed.

Lemma matched_skills_filter (text : string) :
  matched_skills text = List.filter (skill_found (Py.lower text)) IAN_SKILLS.
Proof. unfold matched_skills. by rewrite match_loop_filter. Qed.

Lemma score_listing_fst (text : string) :
  fst (score_listing text) = Z.max 0 (score_remote text).
Proof. reflexivity. Qed.

Lemma score_listing_snd (text : string) :
  snd (score_listing text) = matched_skills text.
Proof. reflexivity. Qed.

Lemma filter_sublist {A} (f : A → bool) (l : list A) :
  List.filter f l `sublist_of` l.
Proof.
  induction l as [|x l IH]; simpl; [constructor|].
  destruct (f x); by constructor.
Qed.

Lemma skills_NoDup : NoDup IAN_SKILLS.
Proof. apply (bool_decide_unpack _). vm_compute. reflexivity. Qed.

Lemma elem_of_matched (text skill : string) :
  skill ∈ matched_skills text
  ↔ skill ∈ IAN_SKILLS ∧ whole_word_in skill (Py.lower text).
Proof.
  rewrite matched_skills_filter, !list_elem_of_In, filter_In.
  rewrite <- list_elem_of_In. split.
  - intros [Hin H]. split; [exact Hin|].
    apply skill_found_whole_word; [by apply skills_word_ended | exact H].
  - intros [Hin H]. split; [exact Hin|].
    apply skill_found_whole_word; [by apply skills_word_ended | exact H].
Qed.

(** A computable way to establish which skills a text holds as whole
    words. *)
Lemma skills_exactly (s : string) (expected : list string) :
  List.filter (skill_found s) IAN_SKILLS = expected →
  ∀ skill, skill ∈ IAN_SKILLS → (whole_word_in skill s ↔ skill ∈ expected).
Proof.
  intros <- skill Hin.
  rewrite <- (skill_found_whole_word s skill (skills_word_ended skill Hin)).
  rewrite (list_elem_of_In (List.filter _ _) skill), filter_In.
  rewrite <- list_elem_of_In. tauto.
Qed.

Lemma score_senior_eq (text : string) :
  score_senior text
  = score_skills text
    + (if Py.any_in SENIOR_MARKERS (Py.lower text) then 5 else 0).
Proof. unfold score_senior. destruct (Py.any_in _ _); lia. Qed.

Lemma score_junior_eq (text : string) :
  score_junior text
  = score_senior text
    - (if Py.any_in JUNIOR_MARKERS (Py.lower text) then 10 else 0).
Proof. unfold score_junior. destruct (Py.any_in _ _); lia. Qed.

Lemma score_remote_eq (text : string) :
  score_remote text
  = score_junior text
    + (if Py.contains "remote" (Py.lower text) then 5 else 0).
Proof. unfold score_remote. destruct (Py.contains _ _); lia. Qed.

Lemma any_in_true (ws : list string) (w s : string) :
  w ∈ ws → Py.contains w s = true → Py.any_in ws s = true.
Proof.
  intros Hin H. unfold Py.any_in. apply existsb_exists.
  exists w. by rewrite <- list_elem_of_In.
Qed.

(** The skills found in a text whose only whole-word skills are python and
    sql. *)
Lemma matched_python_sql (text : string) :
  (∀ skill, skill ∈ IAN_SKILLS →
     (whole_word_in skill (Py.lower text)
      ↔ skill = "python" ∨ skill = "sql")) →
  matched_skills text = ["python"; "sql"].
Proof.
  intros Hexact. rewrite matched_skills_filter.
  transitivity
    (List.filter (fun skill => bool_decide (skill = "python" ∨ skill = "sql"))
       IAN_SKILLS); [|vm_compute; reflexivity].
  apply filter_ext_in. intros skill Hin%list_elem_of_In.
  specialize (Hexact skill Hin).
  rewrite <- (skill_found_whole_word _ skill (skills_word_ended skill Hin))
    in Hexact.
  destruct (skill_found (Py.lower text) skill); symmetry.
  - apply bool_decide_eq_true. by apply Hexact.
  - apply bool_decide_eq_false. intros H%Hexact. discriminate.
Qed.

(** C1, as the code has it: the scorer lower-cases the text and tests every
    skill of [IAN_SKILLS], in order, with the pattern [\bskill\b], which
    finds exactly the whole-word occurrences of the skill; the matched list
    holds the skills found, each once and in the order of [IAN_SKILLS], and
    the score before the adjustments is 10 per matched skill. A text that
    holds python and sql as its only skills, and none of the seniority,
    junior and remote markers anywhere in its lower-case form, not even
    inside a longer word, scores 20 with the matched list python, sql. *)
Theorem C1_skill_matching (text : string) :
  (∀ skill, skill ∈ IAN_SKILLS →
     (skill_found (Py.lower text) skill = true
      ↔ whole_word_in skill (Py.lower text)))
  ∧ snd (score_listing text)
    = List.filter (skill_found (Py.lower text)) IAN_SKILLS
  ∧ (∀ skill, skill ∈ snd (score_listing text)
       ↔ skill ∈ IAN_SKILLS ∧ whole_word_in skill (Py.lower text))
  ∧ NoDup (snd (score_listing text))
  ∧ snd (score_listing text) `sublist_of` IAN_SKILLS
  ∧ score_skills text = 10 * Z.of_nat (length (snd (score_listing text)))
  ∧ ((∀ skill, skill ∈ IAN_SKILLS →
        (whole_word_in skill (Py.lower text)
         ↔ skill = "python" ∨ skill = "sql")) →
     Py.any_in SENIOR_MARKERS (Py.lower text) = false →
     Py.any_in JUNIOR_MARKERS (Py.lower text) = false →
     Py.contains "remote" (Py.lower text) = false →
     score_listing text = (20, ["python"; "sql"])).
Proof.
  rewrite score_listing_snd.
  split; [|split; [|split; [|split; [|split; [|split]]]]].
  - intros skill Hin. by apply skill_found_whole_word, skills_word_ended.
  - apply matched_skills_filter.
  - apply elem_of_matched.
  - rewrite matched_skills_filter.
    apply NoDup_ListNoDup, List.NoDup_filter, NoDup_ListNoDup, skills_NoDup.
  - rewrite matched_skills_filter. apply filter_sublist.
  - unfold score_skills. lia.
  - intros Hexact Hsenior Hjunior Hremote.
    unfold score_listing, score_remote, score_junior, score_senior,
      score_skills.
    rewrite Hremote, Hjunior, Hsenior, (matched_python_sql text Hexact).
    reflexivity.
Qed.

Lemma C1_skill_matching_witness :
  score_listing "We use Python and SQL daily." = (20, ["python"; "sql"]).
Proof.
  apply (C1_skill_matching "We use Python and SQL daily.").
  - intros skill Hin.
    rewrite (skills_exactly _ ["python"; "sql"]);
      [|vm_compute; reflexivity | exact Hin].
    rewrite !elem_of_cons, elem_of_nil. tauto.
  - vm_compute; reflexivity.
  - vm_compute; reflexivity.
  - vm_compute; reflexivity.
Defined.

(** C1 fails as stated: "We use Python and SQL remotely." holds python and
    sql as its only skills and none of the seven markers as a word of its
    own, and it scores 25, not 20: remote is found inside remotely. *)
Lemma C1_counterexample :
  (∀ skill, skill ∈ IAN_SKILLS →
     (whole_word_in skill (Py.lower "We use Python and SQL remotely.")
      ↔ skill = "python" ∨ skill = "sql"))
  ∧ (∀ marker, marker ∈ SENIOR_MARKERS ++ JUNIOR_MARKERS ++ ["remote"] →
       ¬ whole_word_in marker (Py.lower "We use Python and SQL remotely."))
  ∧ score_listing "We use Python and SQL remotely." = (25, ["python"; "sql"])
  ∧ fst (score_listing "We use Python and SQL remotely.") ≠ 20.
Proof.
  split; [|split; [|split; [vm_compute; reflexivity | vm_compute; discriminate]]].
  - intros skill Hin.
    rewrite (skills_exactly _ ["python"; "sql"]);
      [|vm_compute; reflexivity | exact Hin].
    rewrite !elem_of_cons, elem_of_nil. tauto.
  - intros marker Hin. unfold SENIOR_MARKERS, JUNIOR_MARKERS in Hin.
    simpl app in Hin. rewrite !elem_of_cons, elem_of_nil in Hin.
    destruct Hin as [->|[->|[->|[->|[->|[->|[->|[]]]]]]]];
      (intros H%skill_found_whole_word; [|vm_compute; reflexivity]);
      vm_compute in H; discriminate.
Qed.

(** C2, as the code has it: the remote bonus is 5, added once, exactly when
    the lower-cased text holds the letters remote as a substring, be it
    inside a longer word; a whole-word occurrence is one such case. The
    clamp to 0 comes after the bonus. *)
Theorem C2_remote_bonus (text : string) :
  score_remote text
  = score_junior text
    + (if Py.contains "remote" (Py.lower text) then 5 else 0)
  ∧ (score_remote text = score_junior text + 5
     ↔ occurs_in "remote" (Py.lower text))
  ∧ (score_remote text = score_junior text
     ∨ score_remote text = score_junior text + 5)
  ∧ (whole_word_in "remote" (Py.lower text) →
     score_remote text = score_junior text + 5)
  ∧ fst (score_listing text) = Z.max 0 (score_remote text).
Proof.
  rewrite <- contains_spec, score_remote_eq, score_listing_fst.
  rewrite score_remote_eq.
  destruct (Py.contains "remote" (Py.lower text)) eqn:Hc.
  - split; [reflexivity|]. split; [tauto|]. split; [by right|].
    split; [done | reflexivity].
  - split; [reflexivity|]. split; [split; [lia | discriminate]|].
    split; [left; lia|]. split; [|reflexivity].
    intros H%whole_word_occurs%contains_spec. congruence.
Qed.

Lemma C2_remote_bonus_witness :
  score_remote "Remote, remote, REMOTE: python"
  = score_junior "Remote, remote, REMOTE: python" + 5.
Proof.
  destruct (C2_remote_bonus "Remote, remote, REMOTE: python")
    as (_ & _ & _ & H & _).
  apply H. apply skill_found_whole_word; vm_compute; reflexivity.
Defined.

(** C2 fails as stated: in "Work remotely with Python" the word remote does
    not occur as a whole word, and the bonus of 5 is added all the same. *)
Lemma C2_counterexample :
  ¬ whole_word_in "remote" (Py.lower "Work remotely with Python")
  ∧ score_remote "Work remotely with Python"
    = score_junior "Work remotely with Python" + 5
  ∧ score_listing "Work remotely with Python" = (15, ["python"]).
Proof.
  split; [|split; vm_compute; reflexivity].
  intros H%skill_found_whole_word; [|vm_compute; reflexivity].
  vm_compute in H. discriminate.
Qed.

(** C5: the score is never negative, the total being clamped at 0. A text
    with a junior marker and no skill scores 0; with no other marker its
    total before the clamp is -10. *)
Theorem C5_score_nonneg (text : string) :
  0 ≤ fst (score_listing text)
  ∧ fst (score_listing text) = Z.max 0 (score_remote text)
  ∧ ((∀ skill, skill ∈ IAN_SKILLS → ¬ whole_word_in skill (Py.lower text)) →
     Py.any_in JUNIOR_MARKERS (Py.lower text) = true →
     fst (score_listing text) = 0
     ∧ snd (score_listing text) = []
     ∧ (Py.any_in SENIOR_MARKERS (Py.lower text) = false →
        Py.contains "remote" (Py.lower text) = false →
        score_remote text = -10)).
Proof.
  rewrite score_listing_fst, score_listing_snd.
  split; [lia|]. split; [reflexivity|]. intros Hnone Hjunior.
  assert (Hm : matched_skills text = []).
  { destruct (matched_skills text) as [|skill m] eqn:Hm; [reflexivity|].
    assert (Hin : skill ∈ matched_skills text) by (rewrite Hm; left).
    apply elem_of_matched in Hin as [Hin Hw]. by destruct (Hnone skill). }
  rewrite score_remote_eq, score_junior_eq, score_senior_eq.
  unfold score_skills. rewrite Hjunior, Hm.
  change (Z.of_nat (length (@nil string)) * 10) with 0.
  split; [|split; [reflexivity|]].
  - destruct (Py.any_in SENIOR_MARKERS _), (Py.contains "remote" _); lia.
  - by intros -> ->.
Qed.

Lemma C5_score_nonneg_witness :
  fst (score_listing "Junior intern for an entry level position") = 0
  ∧ snd (score_listing "Junior intern for an entry level position") = []
  ∧ score_remote "Junior intern for an entry level position" = -10.
Proof.
  destruct (C5_score_nonneg "Junior intern for an entry level position")
    as (_ & _ & H).
  destruct H as (H0 & Hm & Hraw).
  - intros skill Hin.
    rewrite (skills_exactly _ []); [|vm_compute; reflexivity | exact Hin].
    apply not_elem_of_nil.
  - vm_compute; reflexivity.
  - split; [exact H0|]. split; [exact Hm|].
    apply Hraw; vm_compute; reflexivity.
Defined.

(** C6: the senior check adds 5 and the junior check takes 10, each on its
    own marker set and whatever the other one found. A text that holds
    both senior and intern, in any letter case, gets both: the total is 10
    per skill, plus 5, minus 10, plus the remote bonus if any, clamped at 0.
    A text that holds the two words as written holds them in any case. *)
Theorem C6_senior_junior_independent (text : string) :
  score_junior text
  = score_skills text
    + (if Py.any_in SENIOR_MARKERS (Py.lower text) then 5 else 0)
    - (if Py.any_in JUNIOR_MARKERS (Py.lower text) then 10 else 0)
  ∧ (Py.contains "senior" (Py.lower text) = true →
     Py.contains "intern" (Py.lower text) = true →
     score_senior text = score_skills text + 5
     ∧ score_junior text = score_skills text + 5 - 10
     ∧ fst (score_listing text)
       = Z.max 0 (score_skills text + 5 - 10
                  + (if Py.contains "remote" (Py.lower text) then 5 else 0)))
  ∧ (Py.contains "senior" text = true →
     Py.contains "intern" text = true →
     Py.contains "senior" (Py.lower text) = true
     ∧ Py.contains "intern" (Py.lower text) = true).
Proof.
  rewrite score_listing_fst, score_remote_eq, score_junior_eq, score_senior_eq.
  split; [reflexivity|].
  split; [|intros Hs Hi; split; by apply contains_lower].
  intros Hs Hi.
  assert (Hsenior : Py.any_in SENIOR_MARKERS (Py.lower text) = true).
  { apply (any_in_true _ "senior"); [|exact Hs]. unfold SENIOR_MARKERS.
    rewrite !elem_of_cons. tauto. }
  assert (Hjunior : Py.any_in JUNIOR_MARKERS (Py.lower text) = true).
  { apply (any_in_true _ "intern"); [|exact Hi]. unfold JUNIOR_MARKERS.
    rewrite !elem_of_cons. tauto. }
  rewrite Hsenior, Hjunior. split; [reflexivity|]. split; reflexivity.
Qed.

Lemma C6_senior_junior_independent_witness :
  score_junior "Senior Python engineer mentoring an intern"
  = score_skills "Senior Python engineer mentoring an intern" + 5 - 10
  ∧ fst (score_listing "Senior Python engineer mentoring an intern") = 5.
Proof.
  destruct (C6_senior_junior_independent
              "Senior Python engineer mentoring an intern") as (_ & H & _).
  destruct H as (_ & Hj & Hs);
    [vm_compute; reflexivity | vm_compute; reflexivity |].
  split; [exact Hj | rewrite Hs; vm_compute; reflexivity].
Defined.

(** ** The aggregation loop *)

#[local] Arguments hit_text : simpl never.
#[local] Arguments make_listing : simpl never.

Lemma qualifies_false (hit : Hit.t) :
  qualifies hit = false
  ↔ Py.len (hit_text hit) < 50 ∨ fst (score_listing (hit_text hit)) ≤ 0.
Proof.
  unfold qualifies, long_enough, scores_positive.
  rewrite andb_false_iff, Z.leb_gt, Z.ltb_ge. tauto.
Qed.

Lemma make_listing_id (hit : Hit.t) :
  Listing.id (make_listing hit) = hit_id hit.
Proof. unfold make_listing. by destruct (score_listing _). Qed.

Lemma make_listing_url (hit : Hit.t) :
  Listing.url (make_listing hit) = build_hn_url (hit_id hit).
Proof. unfold make_listing. by destruct (score_listing _). Qed.

Lemma make_listing_score (hit : Hit.t) :
  Listing.score (make_listing hit) = fst (score_listing (hit_text hit)).
Proof. unfold make_listing. by destruct (score_listing _). Qed.

Lemma process_hit_seen (st : scan) (hit : Hit.t) :
  hit_id hit ∈ seen_ids st → process_hit st hit = st.
Proof. intros H. unfold process_hit. by rewrite decide_True. Qed.

Lemma process_hit_new (st : scan) (hit : Hit.t) :
  hit_id hit ∉ seen_ids st →
  process_hit st hit
  = {| seen_ids := seen_ids st ∪ {[hit_id hit]};
       all_listings :=
         all_listings st ++ (if qualifies hit then [make_listing hit] else []);
       stderr := stderr st |}.
Proof.
  intros H. unfold process_hit, qualifies, long_enough, scores_positive.
  rewrite decide_False by done.
  rewrite (Z.leb_antisym _ 50), (Z.ltb_antisym _ 0).
  destruct (score_listing (hit_text hit)) as [score matched].
  change (fst (score, matched)) with score.
  destruct (Py.len (hit_text hit) <? 50); [by rewrite app_nil_r|].
  destruct (score <=? 0); [by rewrite app_nil_r | done].
Qed.

Lemma process_hit_listings (st : scan) (hit : Hit.t) :
  all_listings (process_hit st hit) = all_listings st
  ∨ all_listings (process_hit st hit) = all_listings st ++ [make_listing hit].
Proof.
  destruct (decide (hit_id hit ∈ seen_ids st)) as [Hin|Hin].
  - left. by rewrite process_hit_seen.
  - rewrite process_hit_new by done. simpl.
    destruct (qualifies hit); [by right | left; apply app_nil_r].
Qed.

Lemma process_hits_cons (st : scan) (hit : Hit.t) (hits : list Hit.t) :
  process_hits st (hit :: hits) = process_hits (process_hit st hit) hits.
Proof. reflexivity. Qed.

Lemma process_hits_app (st : scan) (hits1 hits2 : list Hit.t) :
  process_hits st (hits1 ++ hits2)
  = process_hits (process_hits st hits1) hits2.
Proof. apply fold_left_app. Qed.

(** The loop over the hits, in closed form: the identifiers of all the hits
    are recorded, and the listings appended are those of the first
    occurrences that pass both filters, in the order of the hits. *)
Lemma process_hits_spec (hits : list Hit.t) (st : scan) :
  process_hits st hits
  = {| seen_ids := seen_ids st ∪ list_to_set (hit_id <$> hits);
       all_listings :=
         all_listings st
         ++ (make_listing <$>
               List.filter qualifies (first_occurrences (seen_ids st) hits));
       stderr := stderr st |}.
Proof.
  revert st. induction hits as [|hit hits IH]; intros st.
  - destruct st as [seen l e]. simpl. f_equal; [set_solver|].
    by rewrite app_nil_r.
  - rewrite process_hits_cons, IH. simpl first_occurrences.
    destruct (decide (hit_id hit ∈ seen_ids st)) as [Hin|Hin].
    + rewrite process_hit_seen by done. f_equal. set_solver.
    + rewrite process_hit_new by done. simpl. f_equal.
      * set_solver.
      * rewrite <- app_assoc. f_equal.
        destruct (qualifies hit); by rewrite ?fmap_cons.
Qed.

(** ** The ranker *)

Lemma insert_desc_perm (x : Listing.t) (l : list Listing.t) :
  insert_desc x l ≡ₚ x :: l.
Proof.
  induction l as [|y l IH]; simpl; [done|].
  destruct (Listing.score x <? Listing.score y); [|done].
  rewrite IH. apply Permutation_swap.
Qed.

Lemma sort_desc_perm (l : list Listing.t) : sort_desc l ≡ₚ l.
Proof.
  induction l as [|x l IH]; simpl; [done|].
  by rewrite insert_desc_perm, IH.
Qed.

Lemma insert_desc_sorted (x : Listing.t) (l : list Listing.t) :
  StronglySorted desc l → StronglySorted desc (insert_desc x l).
Proof.
  induction l as [|y l IH]; simpl; intros Hl.
  - repeat constructor.
  - apply StronglySorted_cons in Hl as [Hy Hl].
    destruct (Listing.score x <? Listing.score y) eqn:Hlt.
    + apply Z.ltb_lt in Hlt. apply StronglySorted_cons. split; [|by apply IH].
      rewrite insert_desc_perm. constructor; [unfold desc; lia | done].
    + apply Z.ltb_ge in Hlt. apply StronglySorted_cons. split.
      * constructor; [done|]. eapply Forall_impl; [exact Hy|].
        unfold desc. intros z Hz. lia.
      * by apply StronglySorted_cons.
Qed.

Lemma sort_desc_sorted (l : list Listing.t) : StronglySorted desc (sort_desc l).
Proof.
  induction l as [|x l IH]; simpl; [constructor|].
  by apply insert_desc_sorted.
Qed.

(** An insertion goes in front of the listings of the same score. *)
Lemma insert_desc_with_score (s : Z) (x : Listing.t) (l : list Listing.t) :
  with_score s (insert_desc x l) = with_score s (x :: l).
Proof.
  unfold with_score. induction l as [|y l IH]; [done|]. simpl insert_desc.
  destruct (Listing.score x <? Listing.score y) eqn:Hlt; [|done].
  apply Z.ltb_lt in Hlt. simpl in *. rewrite IH.
  destruct (Listing.score x =? s) eqn:Hx, (Listing.score y =? s) eqn:Hy;
    try done.
  apply Z.eqb_eq in Hx, Hy. lia.
Qed.

(** The sort is stable: the listings of any one score keep their order. *)
Lemma sort_desc_stable (s : Z) (l : list Listing.t) :
  with_score s (sort_desc l) = with_score s l.
Proof.
  induction l as [|x l IH]; [done|]. simpl sort_desc.
  rewrite insert_desc_with_score. unfold with_score in *. simpl.
  by rewrite IH.
Qed.

Lemma slice_to_nonneg {A} (n : Z) (l : list A) :
  0 ≤ n → Py.slice_to n l = take (Z.to_nat n) l.
Proof. intros Hn. unfold Py.slice_to. by rewrite (proj2 (Z.leb_le 0 n)). Qed.

Lemma slice_to_sublist {A} (n : Z) (l : list A) :
  Py.slice_to n l `sublist_of` l.
Proof. unfold Py.slice_to. destruct (0 <=? n); apply sublist_take. Qed.

Lemma rank_elem_of (top : Z) (l : list Listing.t) (x : Listing.t) :
  x ∈ rank top l → x ∈ l.
Proof.
  intros Hx. rewrite <- (sort_desc_perm l).
  eapply elem_of_sublist; [exact Hx | apply slice_to_sublist].
Qed.

Lemma rank_NoDup (top : Z) (l : list Listing.t) :
  NoDup (Listing.id <$> l) → NoDup (Listing.id <$> rank top l).
Proof.
  intros Hl. apply (sublist_NoDup _ (Listing.id <$> sort_desc l)).
  - by rewrite sort_desc_perm.
  - apply fmap_sublist, slice_to_sublist.
Qed.

(** C4: the ranker orders the candidates by descending score, keeps the
    candidates of equal score in their order of insertion, and returns the
    first N of that order for a top-count N that is not negative: N
    candidates when there are that many, none of them scoring less than a
    candidate left out. The scores 30, 10, 30, 20 come out as the two 30s in
    their original order, then 20, then 10, and the top 3 of ten candidates
    are the three first of the order. *)
Theorem C4_rank (top : Z) (listings : list Listing.t) :
  0 ≤ top →
  rank top listings = take (Z.to_nat top) (sort_desc listings)
  ∧ sort_desc listings ≡ₚ listings
  ∧ StronglySorted desc (sort_desc listings)
  ∧ (∀ s, with_score s (sort_desc listings) = with_score s listings)
  ∧ length (rank top listings) = (Z.to_nat top `min` length listings)%nat
  ∧ (∀ x y, x ∈ rank top listings →
       y ∈ drop (Z.to_nat top) (sort_desc listings) →
       Listing.score y ≤ Listing.score x)
  ∧ Listing.id <$>
      rank default_top
        [Sample.candidate "a" 30; Sample.candidate "b" 10;
         Sample.candidate "c" 30; Sample.candidate "d" 20]
    = ["a"; "c"; "d"; "b"]
  ∧ Listing.id <$> rank 3 Sample.ten_candidates = ["b"; "d"; "f"].
Proof.
  intros Htop. unfold rank. rewrite slice_to_nonneg by done.
  split; [done|]. split; [apply sort_desc_perm|].
  split; [apply sort_desc_sorted|]. split; [intros s; apply sort_desc_stable|].
  split; [by rewrite length_take, sort_desc_perm|].
  split; [|split; vm_compute; reflexivity].
  intros x y Hx Hy.
  apply (StronglySorted_app_1_elem_of desc
           (take (Z.to_nat top) (sort_desc listings))
           (drop (Z.to_nat top) (sort_desc listings))); [|done..].
  rewrite take_drop. apply sort_desc_sorted.
Qed.

Lemma C4_rank_witness :
  Listing.id <$> rank 3 Sample.ten_candidates = ["b"; "d"; "f"]
  ∧ length (rank 3 Sample.ten_candidates) = 3%nat.
Proof.
  destruct (C4_rank 3 Sample.ten_candidates) as (_ & _ & _ & _ & Hlen & _ & _ & H);
    [lia|].
  split; [exact H | rewrite Hlen; vm_compute; reflexivity].
Defined.

(** ** First occurrences *)

Lemma first_occurrences_elem_of (seen : gset string) (hits : list Hit.t)
    (hit : Hit.t) :
  hit ∈ first_occurrences seen hits → (hit_id hit ∉ seen) ∧ hit ∈ hits.
Proof.
  revert seen. induction hits as [|h hits IH]; intros seen; simpl.
  - by intros ?%elem_of_nil.
  - destruct (decide (hit_id h ∈ seen)) as [Hin|Hin].
    + intros [Hs Hh]%IH. split; [done | by right].
    + intros [->|[Hs Hh]%IH]%elem_of_cons; [split; [done | by left]|].
      split; [set_solver | by right].
Qed.

Lemma first_occurrences_NoDup (seen : gset string) (hits : list Hit.t) :
  NoDup (hit_id <$> first_occurrences seen hits).
Proof.
  revert seen. induction hits as [|h hits IH]; intros seen; simpl.
  - constructor.
  - destruct (decide (hit_id h ∈ seen)) as [Hin|Hin]; [apply IH|].
    rewrite fmap_cons. apply NoDup_cons. split; [|apply IH].
    intros (h' & Heq & [Hs _]%first_occurrences_elem_of)%list_elem_of_fmap.
    set_solver.
Qed.

(** The listings that the loop appends for one identifier: the listing of
    the first hit with that identifier, if the identifier is new and that
    hit passes both filters, and nothing otherwise. *)
Lemma listings_with_id (x : string) (seen : gset string) (hits : list Hit.t) :
  with_id x
    (make_listing <$> List.filter qualifies (first_occurrences seen hits))
  = match first_with_id x hits with
    | Some hit =>
        if decide (x ∈ seen) then []
        else if qualifies hit then [make_listing hit] else []
    | None => []
    end.
Proof.
  unfold with_id, first_with_id.
  revert seen. induction hits as [|h hits IH]; intros seen; [done|].
  simpl first_occurrences. simpl find.
  destruct (decide (hit_id h ∈ seen)) as [Hin|Hin].
  - rewrite IH.
    destruct (bool_decide_reflect (hit_id h = x)) as [Hx|Hx]; [|reflexivity].
    subst x.
    destruct (find _ hits), (decide (hit_id h ∈ seen)); done.
  - pose proof (IH (seen ∪ {[hit_id h]})) as IH'.
    simpl List.filter. destruct (qualifies h) eqn:Hq;
      rewrite ?fmap_cons; simpl List.filter; rewrite IH', ?make_listing_id;
      destruct (bool_decide_reflect (hit_id h = x)) as [Hx|Hx];
      rewrite ?Hq;
      destruct (find _ hits), (decide (x ∈ seen)),
        (decide (x ∈ seen ∪ {[hit_id h]}));
      try done; set_solver.
Qed.

Lemma elem_of_with_id (l : list Listing.t) (y : Listing.t) :
  y ∈ l → y ∈ with_id (Listing.id y) l.
Proof.
  intros Hy. unfold with_id. apply list_elem_of_In, filter_In.
  split; [by apply list_elem_of_In | by apply bool_decide_eq_true].
Qed.

Lemma with_id_NoDup (x : string) (l : list Listing.t) :
  NoDup (Listing.id <$> l) → (length (with_id x l) ≤ 1)%nat.
Proof.
  unfold with_id. induction l as [|y l IH]; simpl; [lia|].
  rewrite NoDup_cons. intros [Hy Hl]. case_bool_decide as Hx; [|by apply IH].
  subst x. destruct (List.filter _ l) as [|z k] eqn:Hf; simpl; [lia|].
  exfalso. apply Hy.
  assert (Hz : In z (List.filter
                       (λ y0, bool_decide (Listing.id y0 = Listing.id y)) l))
    by (rewrite Hf; by left).
  apply filter_In in Hz as [Hz Hid%bool_decide_eq_true].
  rewrite <- Hid. by apply list_elem_of_fmap_2, list_elem_of_In.
Qed.

(** ** A whole run *)

Lemma scan_keyword_spec (requests_get : string → Z → raising response)
    (limit : Z) (st : scan) (keyword : string) :
  seen_ids (scan_keyword requests_get limit st keyword)
  = seen_ids
      (process_hits st (fst (fetch_hn_jobs requests_get keyword limit)))
  ∧ all_listings (scan_keyword requests_get limit st keyword)
    = all_listings
        (process_hits st (fst (fetch_hn_jobs requests_get keyword limit)))
  ∧ stderr (scan_keyword requests_get limit st keyword)
    = stderr st ++ snd (fetch_hn_jobs requests_get keyword limit).
Proof.
  unfold scan_keyword.
  destruct (fetch_hn_jobs requests_get keyword limit) as [hits printed].
  by rewrite !process_hits_spec.
Qed.

Lemma process_hits_agree (st1 st2 : scan) (hits : list Hit.t) :
  seen_ids st1 = seen_ids st2 → all_listings st1 = all_listings st2 →
  seen_ids (process_hits st1 hits) = seen_ids (process_hits st2 hits)
  ∧ all_listings (process_hits st1 hits)
    = all_listings (process_hits st2 hits).
Proof. intros Hs Hl. rewrite !process_hits_spec. simpl. by rewrite Hs, Hl. Qed.

(** The keyword loop sees the hits of all the keywords as one sequence. *)
Lemma scan_keywords_from (requests_get : string → Z → raising response)
    (limit : Z) (keywords : list string) (st : scan) :
  seen_ids (fold_left (scan_keyword requests_get limit) keywords st)
  = seen_ids (process_hits st (all_hits requests_get limit keywords))
  ∧ all_listings (fold_left (scan_keyword requests_get limit) keywords st)
    = all_listings (process_hits st (all_hits requests_get limit keywords)).
Proof.
  revert st. induction keywords as [|k ks IH]; intros st; [done|].
  simpl fold_left. unfold all_hits. simpl concat.
  fold (all_hits requests_get limit ks). rewrite process_hits_app.
  destruct (IH (scan_keyword requests_get limit st k)) as [-> ->].
  destruct (scan_keyword_spec requests_get limit st k) as (Hs & Hl & _).
  by apply process_hits_agree.
Qed.

Lemma run_listings (requests_get : string → Z → raising response)
    (limit : Z) (keywords : list string) :
  all_listings (scan_keywords requests_get limit keywords)
  = make_listing <$>
      List.filter qualifies
        (first_occurrences ∅ (all_hits requests_get limit keywords)).
Proof.
  unfold scan_keywords.
  destruct (scan_keywords_from requests_get limit keywords scan_start)
    as [_ ->].
  by rewrite process_hits_spec.
Qed.

Lemma run_listings_NoDup (requests_get : string → Z → raising response)
    (limit : Z) (keywords : list string) :
  NoDup (Listing.id <$> all_listings (scan_keywords requests_get limit keywords)).
Proof.
  rewrite run_listings.
  apply (sublist_NoDup _
    (hit_id <$> first_occurrences ∅ (all_hits requests_get limit keywords)));
    [apply first_occurrences_NoDup|].
  generalize (first_occurrences ∅ (all_hits requests_get limit keywords)).
  intros l. induction l as [|h l IH]; [constructor|].
  simpl List.filter. destruct (qualifies h).
  - rewrite !fmap_cons, make_listing_id. by constructor.
  - rewrite fmap_cons. by constructor.
Qed.

Lemma run_with_id (requests_get : string → Z → raising response)
    (limit : Z) (keywords : list string) (x : string) :
  with_id x (all_listings (scan_keywords requests_get limit keywords))
  = match first_with_id x (all_hits requests_get limit keywords) with
    | Some hit => if qualifies hit then [make_listing hit] else []
    | None => []
    end.
Proof.
  rewrite run_listings, listings_with_id.
  destruct (first_with_id _ _); [|done]. by rewrite decide_False by set_solver.
Qed.

Lemma run_listing_origin (requests_get : string → Z → raising response)
    (limit : Z) (keywords : list string) (l : Listing.t) :
  l ∈ all_listings (scan_keywords requests_get limit keywords) →
  ∃ hit,
    first_with_id (Listing.id l) (all_hits requests_get limit keywords)
    = Some hit
    ∧ qualifies hit = true ∧ l = make_listing hit.
Proof.
  intros Hl%elem_of_with_id. rewrite run_with_id in Hl.
  destruct (first_with_id _ _) as [hit|]; [|by apply elem_of_nil in Hl].
  destruct (qualifies hit) eqn:Hq; [|by apply elem_of_nil in Hl].
  apply list_elem_of_singleton in Hl. by exists hit.
Qed.

Lemma first_with_id_elem_of (x : string) (hits : list Hit.t) (hit : Hit.t) :
  first_with_id x hits = Some hit → hit ∈ hits ∧ hit_id hit = x.
Proof.
  intros [Hin Hx]%find_some. split; [by apply list_elem_of_In|].
  by apply bool_decide_eq_true in Hx.
Qed.

(** C3 fails as stated: the identifier 7 comes back for two keywords, and
    no listing at all is produced for it, the first occurrence being too
    short, although the second one passes both filters. *)
Lemma C3_counterexample :
  fst (fetch_hn_jobs Sample.net_dup "data scientist" default_limit)
  = [Sample.comment "7" Sample.short_text]
  ∧ fst (fetch_hn_jobs Sample.net_dup "ML engineer" default_limit)
    = [Sample.comment "7" Sample.good_text]
  ∧ qualifies (Sample.comment "7" Sample.good_text) = true
  ∧ length
      (with_id "7"
         (top_results Sample.net_dup ["data scientist"; "ML engineer"]
            default_limit default_top))
    ≠ 1%nat
  ∧ top_results Sample.net_dup ["data scientist"; "ML engineer"]
      default_limit default_top
    = [].
Proof.
  split; [vm_compute; reflexivity|]. split; [vm_compute; reflexivity|].
  split; [vm_compute; reflexivity|]. split; [|vm_compute; reflexivity].
  vm_compute. discriminate.
Qed.

(** C3, as the code has it: no two listings of the output share an
    identifier; a listing of the output is the one made from the first hit
    that bears its identifier, and that hit passes both filters; when the
    first hit of an identifier passes both filters, that identifier gets
    exactly one listing among the collected ones, however many later hits
    repeat it. *)
Theorem C3_unique_identifiers
    (requests_get : string → Z → raising response)
    (keywords : list string) (limit top : Z) :
  NoDup (Listing.id <$> top_results requests_get keywords limit top)
  ∧ (∀ x,
       (length (with_id x (top_results requests_get keywords limit top))
        ≤ 1)%nat)
  ∧ (∀ l, l ∈ top_results requests_get keywords limit top →
       ∃ hit,
         first_with_id (Listing.id l) (all_hits requests_get limit keywords)
         = Some hit
         ∧ qualifies hit = true ∧ l = make_listing hit)
  ∧ (∀ x hit,
       first_with_id x (all_hits requests_get limit keywords) = Some hit →
       qualifies hit = true →
       with_id x (all_listings (scan_keywords requests_get limit keywords))
       = [make_listing hit]).
Proof.
  assert (Hnd : NoDup (Listing.id <$>
                         top_results requests_get keywords limit top))
    by apply rank_NoDup, run_listings_NoDup.
  split; [done|]. split; [intros x; by apply with_id_NoDup|]. split.
  - intros l Hl%rank_elem_of. by apply run_listing_origin.
  - intros x hit Hfirst Hq. by rewrite run_with_id, Hfirst, Hq.
Qed.

Lemma C3_unique_identifiers_witness :
  with_id "7"
    (all_listings
       (scan_keywords Sample.net_dup default_limit
          ["ML engineer"; "data scientist"]))
  = [make_listing (Sample.comment "7" Sample.good_text)].
Proof.
  apply (C3_unique_identifiers Sample.net_dup
           ["ML engineer"; "data scientist"] default_limit default_top).
  - vm_compute; reflexivity.
  - vm_compute; reflexivity.
Defined.

(** C9: the identifier of a hit joins [seen_ids] before the filters are
    applied. If the first hit that bears an identifier is dropped for its
    short text or its non-positive score, every hit of the sequence with
    that identifier leaves the listings as they are, whatever its own text
    holds, and no listing bears that identifier, in the collected list or
    in the ranked output. *)
Theorem C9_seen_before_filters (hits : list Hit.t) (x : string)
    (hit : Hit.t) :
  first_with_id x hits = Some hit →
  Py.len (hit_text hit) < 50 ∨ fst (score_listing (hit_text hit)) ≤ 0 →
  (∀ st h, hit_id h ∈ seen_ids (process_hit st h))
  ∧ x ∈ seen_ids (process_hits scan_start hits)
  ∧ (∀ l, l ∈ all_listings (process_hits scan_start hits) →
       Listing.id l ≠ x)
  ∧ (∀ before later after,
       hits = before ++ later :: after → hit_id later = x →
       all_listings (process_hit (process_hits scan_start before) later)
       = all_listings (process_hits scan_start before))
  ∧ (∀ requests_get keywords limit top l,
       all_hits requests_get limit keywords = hits →
       l ∈ top_results requests_get keywords limit top →
       Listing.id l ≠ x).
Proof.
  intros Hfirst Hdrop%qualifies_false.
  assert (Hnone : ∀ l,
    l ∈ all_listings (process_hits scan_start hits) → Listing.id l ≠ x).
  { intros l Hl%elem_of_with_id Hid. rewrite Hid in Hl.
    rewrite process_hits_spec in Hl. simpl in Hl.
    rewrite listings_with_id, Hfirst, Hdrop in Hl.
    destruct (decide (x ∈ ∅)); by apply elem_of_nil in Hl. }
  split; [|split; [|split; [done|split]]].
  - intros st h. destruct (decide (hit_id h ∈ seen_ids st)) as [Hin|Hin].
    + by rewrite process_hit_seen.
    + rewrite process_hit_new by done. simpl. set_solver.
  - rewrite process_hits_spec. simpl.
    apply first_with_id_elem_of in Hfirst as [Hin <-].
    apply elem_of_union_r, elem_of_list_to_set.
    by apply list_elem_of_fmap_2.
  - intros before later after Hsplit Hlater.
    destruct (process_hit_listings (process_hits scan_start before) later)
      as [Hsame|Hadd]; [done|].
    destruct (Hnone (make_listing later)); [|by rewrite make_listing_id].
    rewrite Hsplit, process_hits_app, process_hits_cons.
    rewrite (process_hits_spec after). simpl. rewrite Hadd.
    apply elem_of_app. left. apply elem_of_app. right. by left.
  - intros requests_get keywords limit top l <- Hl%rank_elem_of.
    apply Hnone. unfold scan_keywords in Hl.
    by destruct (scan_keywords_from requests_get limit keywords scan_start)
      as [_ <-].
Qed.

Lemma C9_seen_before_filters_witness :
  "7" ∈ seen_ids
          (process_hits scan_start
             [Sample.comment "7" Sample.short_text;
              Sample.comment "7" Sample.good_text])
  ∧ all_listings
      (process_hits scan_start
         [Sample.comment "7" Sample.short_text;
          Sample.comment "7" Sample.good_text])
    = []
  ∧ qualifies (Sample.comment "7" Sample.good_text) = true.
Proof.
  destruct (C9_seen_before_filters
              [Sample.comment "7" Sample.short_text;
               Sample.comment "7" Sample.good_text]
              "7" (Sample.comment "7" Sample.short_text))
    as (_ & Hseen & _).
  - vm_compute; reflexivity.
  - left. vm_compute; reflexivity.
  - split; [exact Hseen | split; vm_compute; reflexivity].
Defined.

(** C10: a hit without the [objectID] key raises nothing: it is processed
    under the identifier "", which joins [seen_ids]; once "" is seen, a hit
    without identifier leaves the state as it is, so that a run has at most
    one listing for such hits, and the URL of that listing is the item URL
    followed by nothing. *)
Theorem C10_missing_identifier (st : scan) (hit : Hit.t) :
  Hit.objectID hit = None →
  hit_id hit = ""
  ∧ "" ∈ seen_ids (process_hit st hit)
  ∧ ("" ∈ seen_ids st → process_hit st hit = st)
  ∧ (all_listings (process_hit st hit) = all_listings st
     ∨ all_listings (process_hit st hit)
       = all_listings st ++ [make_listing hit])
  ∧ Listing.id (make_listing hit) = ""
  ∧ Listing.url (make_listing hit) = "https://news.ycombinator.com/item?id="
  ∧ (∀ requests_get keywords limit top,
       (length
          (with_id ""
             (all_listings (scan_keywords requests_get limit keywords)))
        ≤ 1)%nat
       ∧ (length (with_id "" (top_results requests_get keywords limit top))
          ≤ 1)%nat).
Proof.
  intros Hnone.
  assert (Hid : hit_id hit = "") by (unfold hit_id; by rewrite Hnone).
  split; [done|]. split; [|split; [|split; [|split; [|split]]]].
  - destruct (decide (hit_id hit ∈ seen_ids st)) as [Hin|Hin].
    + rewrite process_hit_seen by done. by rewrite <- Hid.
    + rewrite process_hit_new by done. simpl. rewrite Hid. set_solver.
  - intros Hin. apply process_hit_seen. by rewrite Hid.
  - apply process_hit_listings.
  - by rewrite make_listing_id.
  - by rewrite make_listing_url, Hid.
  - intros requests_get keywords limit top.
    split; apply with_id_NoDup;
      [|apply rank_NoDup]; apply run_listings_NoDup.
Qed.

Lemma C10_missing_identifier_witness :
  Listing.url (make_listing (Sample.anonymous Sample.good_text))
  = "https://news.ycombinator.com/item?id="
  ∧ all_listings
      (process_hits scan_start
         [Sample.anonymous Sample.good_text;
          Sample.anonymous Sample.text50])
    = [make_listing (Sample.anonymous Sample.good_text)].
Proof.
  split.
  - apply (C10_missing_identifier scan_start
             (Sample.anonymous Sample.good_text)).
    reflexivity.
  - vm_compute; reflexivity.
Defined.

(** C7: a hit whose normalized text has fewer than 50 characters adds no
    listing, whatever skills it names; from 50 characters on, 50 included,
    a new hit goes to the scorer and is listed exactly when its score is
    positive. Every listing of a run comes from a hit whose normalized text
    has at least 50 characters. *)
Theorem C7_length_filter (st : scan) (hit : Hit.t) :
  (Py.len (hit_text hit) < 50 →
   all_listings (process_hit st hit) = all_listings st)
  ∧ (50 ≤ Py.len (hit_text hit) → hit_id hit ∉ seen_ids st →
     all_listings (process_hit st hit)
     = if 0 <? fst (score_listing (hit_text hit))
       then all_listings st ++ [make_listing hit]
       else all_listings st)
  ∧ (∀ requests_get limit keywords l,
       l ∈ all_listings (scan_keywords requests_get limit keywords) →
       ∃ h, h ∈ all_hits requests_get limit keywords
            ∧ l = make_listing h ∧ 50 ≤ Py.len (hit_text h)).
Proof.
  split; [|split].
  - intros Hshort.
    destruct (decide (hit_id hit ∈ seen_ids st)) as [Hin|Hin].
    + by rewrite process_hit_seen.
    + rewrite process_hit_new by done. simpl.
      assert (Hq : qualifies hit = false) by (apply qualifies_false; by left).
      rewrite Hq. apply app_nil_r.
    - intros Hlong Hin. rewrite process_hit_new by done. simpl.
      unfold qualifies, long_enough, scores_positive.
      rewrite (proj2 (Z.leb_le 50 _) Hlong). simpl andb.
      destruct (0 <? _); [done | apply app_nil_r].
    - intros requests_get limit keywords l
        (h & Hfirst & Hq & ->)%run_listing_origin.
      exists h. apply first_with_id_elem_of in Hfirst as [Hin _].
      split; [done|]. split; [done|].
      unfold qualifies, long_enough in Hq.
      apply andb_true_iff in Hq as [Hq _]. by apply Z.leb_le.
Qed.

Lemma C7_length_filter_witness :
  (Py.len (hit_text (Sample.comment "1" Sample.text49)) = 49
   ∧ fst (score_listing (hit_text (Sample.comment "1" Sample.text49))) = 30
   ∧ all_listings (process_hit scan_start (Sample.comment "1" Sample.text49))
     = [])
  ∧ (Py.len (hit_text (Sample.comment "1" Sample.text50)) = 50
     ∧ all_listings
         (process_hit scan_start (Sample.comment "1" Sample.text50))
       = [make_listing (Sample.comment "1" Sample.text50)]).
Proof.
  split.
  - split; [vm_compute; reflexivity|]. split; [vm_compute; reflexivity|].
    apply (C7_length_filter scan_start (Sample.comment "1" Sample.text49)).
    vm_compute; reflexivity.
  - split; [vm_compute; reflexivity|].
    destruct (C7_length_filter scan_start (Sample.comment "1" Sample.text50))
      as (_ & H & _).
    rewrite H; [vm_compute; reflexivity | vm_compute; discriminate |].
    apply not_elem_of_empty.
Defined.

(** ** The fetch wrapper *)

(** The [try] raises exactly when the request, the status check, the
    decoding of the JSON body or the read of ["hits"] raises. *)
Lemma try_fetch_raises (requests_get : string → Z → raising response)
    (query : string) (limit : Z) (e : string) :
  try_fetch requests_get query limit = Raise e
  ↔ requests_get query limit = Raise e
    ∨ ∃ resp, requests_get query limit = Return resp
        ∧ (raise_for_status resp = Raise e
           ∨ raise_for_status resp = Return ()
             ∧ (json resp = Raise e ∨ json resp = Return (JsonOther e))).
Proof.
  unfold try_fetch, mbind, raising_bind.
  destruct (requests_get query limit) as [resp|e1].
  - split.
    + intros H. right. exists resp. split; [done|].
      destruct (raise_for_status resp) as [[]|e2]; [|left; congruence].
      right. split; [done|].
      destruct (json resp) as [[hits|e4]|e3]; simpl in H;
        [discriminate | right; congruence | left; congruence].
    + intros [?|(r & [= <-] & H)]; [discriminate|].
      destruct H as [-> | [-> [-> | ->]]]; reflexivity.
  - split.
    + intros [= ->]. by left.
    + intros [?|(? & ? & _)]; congruence.
Qed.

Lemma all_hits_app (requests_get : string → Z → raising response)
    (limit : Z) (ks1 ks2 : list string) :
  all_hits requests_get limit (ks1 ++ ks2)
  = all_hits requests_get limit ks1 ++ all_hits requests_get limit ks2.
Proof. unfold all_hits. by rewrite map_app, concat_app. Qed.

(** C8: whatever raises inside the [try] of the fetch wrapper, be it the
    request, the status check, the decoding of the body or the read of the
    hits, is caught there: the wrapper prints one warning that names the
    keyword and the error, and returns no hit. The keyword loop goes on
    with the keywords that follow, and the listings are those of the run
    without the failed keyword. *)
Theorem C8_fetch_failure (requests_get : string → Z → raising response)
    (query : string) (limit : Z) (e : string) :
  (try_fetch requests_get query limit = Raise e
   ↔ requests_get query limit = Raise e
     ∨ ∃ resp, requests_get query limit = Return resp
         ∧ (raise_for_status resp = Raise e
            ∨ raise_for_status resp = Return ()
              ∧ (json resp = Raise e ∨ json resp = Return (JsonOther e))))
  ∧ (try_fetch requests_get query limit = Raise e →
     fetch_hn_jobs requests_get query limit
     = ([], ["[warn] HN fetch failed for '" +:+ query +:+ "': " +:+ e])
     ∧ (∀ st,
          scan_keyword requests_get limit st query
          = {| seen_ids := seen_ids st; all_listings := all_listings st;
               stderr := stderr st ++ [warning query e] |})
     ∧ (∀ before after,
          scan_keywords requests_get limit (before ++ query :: after)
          = fold_left (scan_keyword requests_get limit) after
              {| seen_ids :=
                   seen_ids (scan_keywords requests_get limit before);
                 all_listings :=
                   all_listings (scan_keywords requests_get limit before);
                 stderr :=
                   stderr (scan_keywords requests_get limit before)
                   ++ [warning query e] |})
     ∧ (∀ before after,
          all_listings
            (scan_keywords requests_get limit (before ++ query :: after))
          = all_listings
              (scan_keywords requests_get limit (before ++ after)))).
Proof.
  split; [apply try_fetch_raises|]. intros Hraise.
  assert (Hfetch : fetch_hn_jobs requests_get query limit
                   = ([], [warning query e]))
    by (unfold fetch_hn_jobs; by rewrite Hraise).
  assert (Hstep : ∀ st,
    scan_keyword requests_get limit st query
    = {| seen_ids := seen_ids st; all_listings := all_listings st;
         stderr := stderr st ++ [warning query e] |})
    by (intros st; unfold scan_keyword; by rewrite Hfetch).
  split; [done|]. split; [done|]. split.
  - intros before after. unfold scan_keywords.
    rewrite fold_left_app. simpl fold_left. by rewrite Hstep.
  - intros before after. rewrite !run_listings.
    rewrite !all_hits_app. unfold all_hits at 2. simpl.
    by rewrite Hfetch.
Qed.

Lemma C8_fetch_failure_witness :
  fetch_hn_jobs Sample.net_failing "ML engineer" default_limit
  = ([], ["[warn] HN fetch failed for 'ML engineer': 503 Server Error"])
  ∧ Listing.id <$> all_listings
                     (scan_keywords Sample.net_failing default_limit KEYWORDS)
    = ["1"]
  ∧ length (stderr (scan_keywords Sample.net_failing default_limit KEYWORDS))
    = 4%nat.
Proof.
  split; [|split; vm_compute; reflexivity].
  apply (C8_fetch_failure Sample.net_failing "ML engineer" default_limit
           "503 Server Error").
  vm_compute; reflexivity.
Defined.

(** ** The text normalizer *)

#[local] Arguments clean_text : simpl never.

Lemma find_close_cons (c : ascii) (s : string) :
  find_close (String c s) = None ↔ c ≠ ">"%char ∧ find_close s = None.
Proof.
  simpl. destruct (Ascii.eqb_spec c ">") as [->|Hc].
  - split; [discriminate | by intros [? _]].
  - destruct (find_close s); simpl; split; try done; by intros [_ ?].
Qed.

Lemma tag_len_no_close (s : string) : find_close s = None → tag_len s = None.
Proof.
  destruct s as [|c s]; [done|]. intros [Hc Hs]%find_close_cons. simpl.
  destruct (Ascii.eqb c ">"); [done|]. by rewrite Hs.
Qed.

(** The three ways in which a [<] opens no match: nothing follows it, a
    [>] follows it at once, or no [>] follows it at all. *)
Lemma tag_len_None (s : string) :
  tag_len s = None
  ↔ s = "" ∨ (∃ s', s = String ">" s') ∨ find_close s = None.
Proof.
  split.
  - destruct s as [|c s]; [by left|]. unfold tag_len.
    destruct (Ascii.eqb_spec c ">") as [->|Hc]; [right; left; eauto|].
    destruct (find_close s) eqn:Hs; [discriminate|]. intros _.
    right. right. by apply find_close_cons.
  - intros [->|[[s' ->]|Hs]]; [done | done | by apply tag_len_no_close].
Qed.

Lemma sub_tags_no_close (skip : nat) (s : string) :
  find_close s = None → find_close (sub_tags skip s) = None.
Proof.
  revert skip. induction s as [|c s IH]; intros skip; [done|].
  intros [Hc Hs]%find_close_cons. simpl.
  destruct skip as [|k]; [|by apply IH].
  rewrite (tag_len_no_close s Hs).
  destruct (Ascii.eqb c "<"); apply find_close_cons; auto.
Qed.

Lemma sub_tags_tag_len (s : string) :
  tag_len s = None → tag_len (sub_tags 0 s) = None.
Proof.
  intros [->|[[s' ->]|Hs]]%tag_len_None; [done | done |].
  by apply tag_len_no_close, sub_tags_no_close.
Qed.

Lemma sub_tags_tagless (skip : nat) (s : string) :
  tagless (sub_tags skip s) = true.
Proof.
  revert skip. induction s as [|c s IH]; intros skip; [done|]. simpl.
  destruct skip as [|k]; [|apply IH].
  destruct (Ascii.eqb c "<") eqn:Hc.
  - destruct (tag_len s) as [n|] eqn:Hn; simpl.
    + apply IH.
    + rewrite Hc, IH, (sub_tags_tag_len s Hn). by rewrite bool_decide_eq_true_2.
  - simpl. by rewrite Hc, IH.
Qed.

Lemma tagless_fixed (s : string) : tagless s = true → sub_tags 0 s = s.
Proof.
  induction s as [|c s IH]; [done|]. simpl.
  intros [Hc Hs]%andb_true_iff. rewrite (IH Hs).
  destruct (Ascii.eqb c "<"); [|done]. simpl in Hc.
  apply bool_decide_eq_true in Hc. by rewrite Hc.
Qed.

Lemma sub_spaces_no_close (in_run : bool) (s : string) :
  find_close s = None → find_close (sub_spaces in_run s) = None.
Proof.
  revert in_run. induction s as [|c s IH]; intros in_run; [done|].
  intros [Hc Hs]%find_close_cons. simpl.
  destruct (Py.is_space c); [destruct in_run|];
    try apply find_close_cons; auto.
Qed.

Lemma sub_spaces_tag_len (in_run : bool) (s : string) :
  tag_len s = None → tag_len (sub_spaces in_run s) = None.
Proof.
  intros [->|[[s' ->]|Hs]]%tag_len_None; [done | done |].
  by apply tag_len_no_close, sub_spaces_no_close.
Qed.

Lemma tagless_cons (c : ascii) (s : string) :
  tagless (String c s) = true
  ↔ (c = "<"%char → tag_len s = None) ∧ tagless s = true.
Proof.
  simpl. rewrite andb_true_iff, orb_true_iff, negb_true_iff,
    bool_decide_eq_true.
  destruct (Ascii.eqb_spec c "<"); naive_solver.
Qed.

Lemma sub_spaces_tagless (in_run : bool) (s : string) :
  tagless s = true → tagless (sub_spaces in_run s) = true.
Proof.
  revert in_run. induction s as [|c s IH]; intros in_run; [done|].
  intros [Hc Hs]%tagless_cons. simpl.
  destruct (Py.is_space c); [destruct in_run|].
  - by apply IH.
  - apply tagless_cons. split; [done | by apply IH].
  - apply tagless_cons. split; [|by apply IH].
    intros Hlt. by apply sub_spaces_tag_len, Hc.
Qed.

Lemma sub_spaces_single (in_run : bool) (s : string) :
  single_spaced in_run (sub_spaces in_run s) = true.
Proof.
  revert in_run. induction s as [|c s IH]; intros in_run; [done|]. simpl.
  destruct (Py.is_space c) eqn:Hc; [destruct in_run|].
  - apply IH.
  - simpl. apply IH.
  - simpl. rewrite Hc. apply IH.
Qed.

Lemma single_spaced_fixed (in_run : bool) (s : string) :
  single_spaced in_run s = true → sub_spaces in_run s = s.
Proof.
  revert in_run. induction s as [|c s IH]; intros in_run; [done|]. simpl.
  destruct (Py.is_space c).
  - intros [[Hc Hrun%negb_true_iff]%andb_true_iff Hs]%andb_true_iff.
    apply Ascii.eqb_eq in Hc. subst. by rewrite (IH true Hs).
  - intros Hs. by rewrite (IH false Hs).
Qed.

Lemma single_spaced_any (b : bool) (s : string) :
  space_side (Re.head_char s) = false →
  single_spaced b s = single_spaced false s.
Proof. destruct s as [|c s]; [done|]. simpl. by intros ->. Qed.

(** *** [lstrip] and [rstrip] *)

Lemma lstrip_head (s : string) : space_side (Re.head_char (lstrip s)) = false.
Proof.
  induction s as [|c s IH]; [done|]. simpl.
  destruct (Py.is_space c) eqn:Hc; [done | by simpl].
Qed.

Lemma lstrip_fixed (s : string) :
  space_side (Re.head_char s) = false → lstrip s = s.
Proof. destruct s as [|c s]; [done|]. simpl. by intros ->. Qed.

Lemma lstrip_tagless (s : string) :
  tagless s = true → tagless (lstrip s) = true.
Proof.
  induction s as [|c s IH]; [done|]. intros Hs. simpl.
  destruct (Py.is_space c); [|done].
  apply tagless_cons in Hs as [_ Hs]. by apply IH.
Qed.

Lemma lstrip_single (b : bool) (s : string) :
  single_spaced b s = true → single_spaced false (lstrip s) = true.
Proof.
  revert b. induction s as [|c s IH]; intros b; [done|]. simpl.
  destruct (Py.is_space c) eqn:Hc.
  - intros [_ Hs]%andb_true_iff. by apply (IH true).
  - intros Hs. simpl. by rewrite Hc.
Qed.

Lemma rstrip_blank (s : string) : rstrip s = "" ↔ blank s = true.
Proof.
  induction s as [|c s IH]; [done|]. simpl. rewrite andb_true_iff, <- IH.
  destruct (rstrip s), (Py.is_space c); naive_solver.
Qed.

Lemma rstrip_cons (c : ascii) (s : string) :
  rstrip (String c s)
  = if blank (String c s) then "" else String c (rstrip s).
Proof.
  simpl. destruct (rstrip s) as [|d r] eqn:Hr.
  - apply rstrip_blank in Hr. rewrite Hr, andb_true_r.
    by destruct (Py.is_space c).
  - assert (Hb : blank s = false).
    { destruct (blank s) eqn:Hb; [|done].
      apply rstrip_blank in Hb. congruence. }
    by rewrite Hb, andb_false_r.
Qed.

Lemma rstrip_last (prev : option ascii) (s : string) :
  space_side prev = false ∨ blank s = false →
  space_side (last_char prev (rstrip s)) = false.
Proof.
  revert prev. induction s as [|c s IH]; intros prev.
  - by intros [?|?].
  - rewrite rstrip_cons. destruct (blank (String c s)) eqn:Hb.
    + by intros [?|?].
    + intros _. simpl last_char. apply IH. simpl in Hb.
      apply andb_false_iff in Hb as [?|?]; [by left | by right].
Qed.

Lemma rstrip_head (s : string) :
  space_side (Re.head_char s) = false →
  space_side (Re.head_char (rstrip s)) = false.
Proof.
  destruct s as [|c s]; [done|]. rewrite rstrip_cons.
  by destruct (blank _).
Qed.

Lemma rstrip_fixed (prev : option ascii) (s : string) :
  space_side (last_char prev s) = false → rstrip s = s.
Proof.
  revert prev. induction s as [|c s IH]; intros prev; [done|].
  simpl last_char. intros Hl. rewrite rstrip_cons, (IH _ Hl).
  destruct (blank (String c s)) eqn:Hb; [|done]. exfalso.
  clear IH. revert c Hl Hb. induction s as [|d s IH]; intros c.
  - simpl. by intros -> .
  - simpl last_char. intros Hl [_ Hb]%andb_true_iff. by apply (IH d).
Qed.

Lemma rstrip_no_close (s : string) :
  find_close s = None → find_close (rstrip s) = None.
Proof.
  induction s as [|c s IH]; [done|]. intros [Hc Hs]%find_close_cons.
  rewrite rstrip_cons. destruct (blank _); [done|].
  apply find_close_cons. auto.
Qed.

Lemma rstrip_tag_len (s : string) :
  tag_len s = None → tag_len (rstrip s) = None.
Proof.
  intros [->|[[s' ->]|Hs]]%tag_len_None; [done | |].
  - rewrite rstrip_cons. by destruct (blank _).
  - by apply tag_len_no_close, rstrip_no_close.
Qed.

Lemma rstrip_tagless (s : string) :
  tagless s = true → tagless (rstrip s) = true.
Proof.
  induction s as [|c s IH]; [done|]. intros [Hc Hs]%tagless_cons.
  rewrite rstrip_cons. destruct (blank _); [done|].
  apply tagless_cons. split; [|by apply IH].
  intros Hlt. by apply rstrip_tag_len, Hc.
Qed.

Lemma rstrip_single (b : bool) (s : string) :
  single_spaced b s = true → single_spaced b (rstrip s) = true.
Proof.
  revert b. induction s as [|c s IH]; intros b; [done|].
  rewrite rstrip_cons. destruct (blank (String c s)); [done|]. simpl.
  destruct (Py.is_space c).
  - intros [Hc Hs]%andb_true_iff. rewrite Hc. by apply IH.
  - by apply IH.
Qed.

Lemma strip_trimmed (s : string) : trimmed (strip s) = true.
Proof.
  unfold trimmed, strip. apply andb_true_iff; split; apply negb_true_iff.
  - apply rstrip_head, lstrip_head.
  - apply rstrip_last. by left.
Qed.

Lemma strip_fixed (s : string) : trimmed s = true → strip s = s.
Proof.
  unfold trimmed, strip.
  intros [Hh%negb_true_iff Hl%negb_true_iff]%andb_true_iff.
  rewrite (lstrip_fixed s Hh). by apply (rstrip_fixed None).
Qed.

Lemma or_else_some (s : string) : Py.or_else (Some s) "" = s.
Proof. by destruct s. Qed.

(** *** Tags *)

Lemma find_close_Some (s : string) :
  find_close s ≠ None
  ↔ ∃ body post, s = body +:+ String ">" post ∧ find_close body = None.
Proof.
  induction s as [|c s IH].
  - split; [done|]. intros ([|d body] & post & Hs & _); discriminate.
  - simpl. destruct (Ascii.eqb_spec c ">") as [->|Hc].
    + split; [|done]. intros _. by exists "", s.
    + split.
      * intros Hs. destruct IH as [IH _].
        destruct IH as (body & post & -> & Hb);
          [by destruct (find_close s)|].
        exists (String c body), post. split; [done|].
        by apply find_close_cons.
      * intros ([|d body] & post & Hs & Hb); simpl in Hs;
          injection Hs as -> ->; [done|].
        apply find_close_cons in Hb as [_ Hb].
        destruct IH as [_ IH].
        destruct (find_close (body +:+ String ">" post)) eqn:Hf; [done|].
        destruct IH; [eauto | done].
Qed.

Lemma tag_len_Some (s : string) :
  tag_len s ≠ None
  ↔ ∃ body post,
      s = body +:+ String ">" post ∧ body ≠ "" ∧ find_close body = None.
Proof.
  destruct s as [|c s].
  - split; [done|]. intros ([|d body] & post & Hs & _); discriminate.
  - unfold tag_len. destruct (Ascii.eqb_spec c ">") as [->|Hc].
    + split; [done|]. intros ([|d body] & post & Hs & Hne & Hb); [done|].
      simpl in Hs. injection Hs as <- ->.
      by apply find_close_cons in Hb as [? _].
    + split.
      * intros Hs.
        destruct (proj1 (find_close_Some s)) as (body & post & -> & Hb);
          [by destruct (find_close s)|].
        exists (String c body), post. split; [done|]. split; [done|].
        by apply find_close_cons.
      * intros ([|d body] & post & Hs & Hne & Hb); [done|].
        simpl in Hs. injection Hs as -> ->.
        apply find_close_cons in Hb as [_ Hb].
        destruct (find_close (body +:+ String ">" post)) eqn:Hf; [done|].
        destruct (proj2 (find_close_Some (body +:+ String ">" post)));
          [eauto | done].
Qed.

Lemma tagless_spec (s : string) : tagless s = true ↔ ¬ has_tag s.
Proof.
  unfold has_tag. induction s as [|c s IH].
  - split; [|done]. intros _ ([|d pre] & body & post & Hs & _); discriminate.
  - rewrite tagless_cons, IH. split.
    + intros [Hc Hs] ([|d pre] & body & post & Heq & Hne & Hb);
        simpl in Heq; injection Heq as -> ->.
      * assert (Ht : tag_len (body +:+ String ">" post) ≠ None)
          by (apply tag_len_Some; eauto).
        by apply Ht, Hc.
      * apply Hs. eauto 6.
    + intros Hno. split.
      * intros ->. destruct (tag_len s) eqn:Ht; [|done].
        destruct (proj1 (tag_len_Some s)) as (body & post & -> & Hne & Hb);
          [by rewrite Ht|].
        destruct Hno. by exists "", body, post.
      * intros (pre & body & post & -> & Hne & Hb). apply Hno.
        by exists (String c pre), body, post.
Qed.

(** *** Whitespace *)

Lemma last_char_append (prev : option ascii) (a b : string) :
  last_char prev (a +:+ b) = last_char (last_char prev a) b.
Proof. revert prev. induction a as [|c a IH]; intros prev; simpl; auto. Qed.

Lemma single_spaced_inside (b : bool) (s pre post : string) (c : ascii) :
  single_spaced b s = true → s = pre +:+ String c post →
  Py.is_space c = true →
  c = " "%char ∧ space_side (Re.head_char post) = false
  ∧ (pre = "" → b = false).
Proof.
  revert b s. induction pre as [|d pre IH]; intros b s Hs -> Hc.
  - simpl in Hs. rewrite Hc in Hs.
    apply andb_true_iff in Hs as [[Heq Hb]%andb_true_iff Hs].
    apply Ascii.eqb_eq in Heq. apply negb_true_iff in Hb.
    split; [done|]. split; [|done].
    destruct post as [|e post]; [done|]. simpl in *.
    destruct (Py.is_space e); [|done].
    by rewrite andb_false_r in Hs.
  - simpl in Hs. destruct (Py.is_space d).
    + apply andb_true_iff in Hs as [_ Hs].
      destruct (IH true _ Hs eq_refl Hc) as (? & ? & _). by repeat split.
    + destruct (IH false _ Hs eq_refl Hc) as (? & ? & _). by repeat split.
Qed.

(** *** Lengths *)

Lemma sub_tags_length (skip : nat) (s : string) :
  (String.length (sub_tags skip s) ≤ String.length s)%nat.
Proof.
  revert skip. induction s as [|c s IH]; intros skip; [done|].
  change (String.length (String c s)) with (S (String.length s)).
  destruct skip as [|k]; [|specialize (IH k); simpl sub_tags; lia].
  simpl sub_tags.
  destruct (Ascii.eqb c "<"); [destruct (tag_len s) as [n|]|].
  - specialize (IH n). simpl String.length. lia.
  - specialize (IH O). simpl String.length. lia.
  - specialize (IH O). simpl String.length. lia.
Qed.

Lemma sub_spaces_length (in_run : bool) (s : string) :
  (String.length (sub_spaces in_run s) ≤ String.length s)%nat.
Proof.
  revert in_run. induction s as [|c s IH]; intros in_run; [done|].
  change (String.length (String c s)) with (S (String.length s)).
  simpl sub_spaces. destruct (Py.is_space c); [destruct in_run|].
  - specialize (IH true). lia.
  - specialize (IH true). simpl String.length. lia.
  - specialize (IH false). simpl String.length. lia.
Qed.

Lemma lstrip_length (s : string) :
  (String.length (lstrip s) ≤ String.length s)%nat.
Proof.
  induction s as [|c s IH]; [done|].
  change (String.length (String c s)) with (S (String.length s)).
  simpl lstrip. destruct (Py.is_space c); [lia|].
  change (String.length (String c s)) with (S (String.length s)). lia.
Qed.

Lemma rstrip_length (s : string) :
  (String.length (rstrip s) ≤ String.length s)%nat.
Proof.
  induction s as [|c s IH]; [done|]. rewrite rstrip_cons.
  change (String.length (String c s)) with (S (String.length s)).
  destruct (blank _); [simpl; lia|].
  change (String.length (String c (rstrip s)))
    with (S (String.length (rstrip s))). lia.
Qed.

Lemma clean_text_length (html : option string) :
  Py.len (clean_text html) ≤ Py.len (Py.or_else html "").
Proof.
  unfold clean_text, strip, Py.len.
  pose proof (rstrip_length
    (lstrip (sub_spaces false (sub_tags 0 (Py.or_else html ""))))).
  pose proof (lstrip_length
    (sub_spaces false (sub_tags 0 (Py.or_else html "")))).
  pose proof (sub_spaces_length false (sub_tags 0 (Py.or_else html ""))).
  pose proof (sub_tags_length 0 (Py.or_else html "")).
  lia.
Qed.

(** *** Blank text *)

Lemma blank_tagless (s : string) : blank s = true → tagless s = true.
Proof.
  induction s as [|c s IH]; [done|]. simpl.
  intros [Hc Hs]%andb_true_iff. rewrite (IH Hs), andb_true_r.
  destruct (Ascii.eqb_spec c "<") as [->|]; [discriminate | done].
Qed.

Lemma sub_spaces_blank (in_run : bool) (s : string) :
  blank s = true → blank (sub_spaces in_run s) = true.
Proof.
  revert in_run. induction s as [|c s IH]; intros in_run; [done|]. simpl.
  intros [Hc Hs]%andb_true_iff. rewrite Hc.
  destruct in_run; simpl; by apply IH.
Qed.

Lemma lstrip_blank (s : string) : blank s = true → lstrip s = "".
Proof.
  induction s as [|c s IH]; [done|]. simpl.
  intros [Hc Hs]%andb_true_iff. rewrite Hc. by apply IH.
Qed.

Lemma hit_text_raw (hit : Hit.t) : hit_text hit = clean_text (Some (hit_raw hit)).
Proof. reflexivity. Qed.

(** *** The normal form of [clean_text] *)

Lemma clean_text_shape (html : option string) :
  tagless (clean_text html) = true
  ∧ single_spaced false (clean_text html) = true
  ∧ trimmed (clean_text html) = true.
Proof.
  unfold clean_text, strip. split; [|split].
  - apply rstrip_tagless, lstrip_tagless, sub_spaces_tagless,
      sub_tags_tagless.
  - apply rstrip_single, (lstrip_single false), sub_spaces_single.
  - apply strip_trimmed.
Qed.

Lemma normal_fixed (s : string) :
  tagless s = true → single_spaced false s = true → trimmed s = true →
  clean_text (Some s) = s.
Proof.
  intros Ht Hs Hr. unfold clean_text.
  by rewrite or_else_some, (tagless_fixed s Ht),
    (single_spaced_fixed false s Hs), (strip_fixed s Hr).
Qed.

Lemma process_hit_records (st : scan) (hit : Hit.t) :
  hit_id hit ∈ seen_ids (process_hit st hit).
Proof.
  destruct (decide (hit_id hit ∈ seen_ids st)) as [Hin|Hin].
  - by rewrite process_hit_seen.
  - rewrite process_hit_new by done. simpl. set_solver.
Qed.

Lemma process_hit_unqualified (st : scan) (hit : Hit.t) :
  qualifies hit = false →
  all_listings (process_hit st hit) = all_listings st.
Proof.
  intros Hq. destruct (decide (hit_id hit ∈ seen_ids st)) as [Hin|Hin].
  - by rewrite process_hit_seen.
  - rewrite process_hit_new by done. simpl. rewrite Hq. apply app_nil_r.
Qed.

(** X1: whatever the input, the text that [clean_text] returns holds no
    markup tag, and its only whitespace characters are single spaces
    inside the text: each one is a space, has text before and after it,
    and is followed by a character that is not whitespace. *)
Theorem X1_clean_text_normal_form (html : option string) :
  ¬ has_tag (clean_text html)
  ∧ (∀ pre c post,
       clean_text html = pre +:+ String c post →
       Py.is_space c = true →
       c = " "%char ∧ pre ≠ "" ∧ post ≠ ""
       ∧ space_side (Re.head_char post) = false).
Proof.
  destruct (clean_text_shape html) as (Ht & Hs & Hr).
  split; [by apply tagless_spec|].
  intros pre c post Heq Hc.
  destruct (single_spaced_inside false _ pre post c Hs Heq Hc)
    as (-> & Hpost & _).
  unfold trimmed in Hr. rewrite Heq in Hr.
  apply andb_true_iff in Hr as [Hh%negb_true_iff Hl%negb_true_iff].
  split; [done|]. split; [|split; [|done]].
  - intros ->. simpl in Hh. congruence.
  - intros ->. rewrite last_char_append in Hl. simpl in Hl. congruence.
Qed.

Lemma X1_clean_text_normal_form_witness :
  clean_text (Some Demo.markup)
  = "Senior Python engineer, remote &amp; friendly; a y"
  ∧ " "%char = " "%char ∧ "Senior" ≠ ""
  ∧ "Python engineer, remote &amp; friendly; a y" ≠ ""
  ∧ space_side
      (Re.head_char "Python engineer, remote &amp; friendly; a y") = false.
Proof.
  split; [vm_compute; reflexivity|].
  destruct (X1_clean_text_normal_form (Some Demo.markup)) as [_ H].
  apply (H "Senior" " "%char "Python engineer, remote &amp; friendly; a y").
  - vm_compute; reflexivity.
  - vm_compute; reflexivity.
Defined.

(** X2: [clean_text] is idempotent: cleaning a cleaned text changes
    nothing. *)
Theorem X2_clean_text_idempotent (html : option string) :
  clean_text (Some (clean_text html)) = clean_text html.
Proof.
  destruct (clean_text_shape html) as (Ht & Hs & Hr). by apply normal_fixed.
Qed.

(** X3: a text that holds no markup tag, whose whitespace is made of single
    spaces and that neither begins nor ends with whitespace goes through
    [clean_text] unchanged; a [<] or a [>] that belongs to no tag is kept. *)
Theorem X3_clean_text_fixed_point (s : string) :
  ¬ has_tag s → single_spaced false s = true → trimmed s = true →
  clean_text (Some s) = s.
Proof. intros Ht%tagless_spec Hs Hr. by apply normal_fixed. Qed.

Lemma X3_clean_text_fixed_point_witness :
  clean_text (Some "3 > 2, x <> y, a < b") = "3 > 2, x <> y, a < b".
Proof.
  apply X3_clean_text_fixed_point.
  - apply tagless_spec. vm_compute; reflexivity.
  - vm_compute; reflexivity.
  - vm_compute; reflexivity.
Defined.

(** X4: [clean_text] never returns more characters than it receives, so
    that a hit whose raw text has fewer than 50 characters adds no listing,
    whatever it says. *)
Theorem X4_clean_text_no_longer (html : option string) :
  Py.len (clean_text html) ≤ Py.len (Py.or_else html "")
  ∧ (∀ st hit,
       Py.len (hit_raw hit) < 50 →
       all_listings (process_hit st hit) = all_listings st).
Proof.
  split; [apply clean_text_length|]. intros st hit Hraw.
  apply process_hit_unqualified, qualifies_false. left.
  rewrite hit_text_raw.
  pose proof (clean_text_length (Some (hit_raw hit))) as Hlen.
  rewrite or_else_some in Hlen. lia.
Qed.

Lemma X4_clean_text_no_longer_witness :
  all_listings (process_hit scan_start (Sample.comment "3" Sample.short_text))
  = [].
Proof.
  destruct (X4_clean_text_no_longer None) as [_ H].
  apply (H scan_start (Sample.comment "3" Sample.short_text)).
  vm_compute; reflexivity.
Defined.

(** X5: a text that is absent, empty or made of whitespace only is cleaned
    to the empty string. A hit whose comment and story texts are both
    absent, empty or blank adds no listing, and its identifier is recorded
    as seen all the same. *)
Theorem X5_blank_text (html : option string) :
  clean_text None = ""
  ∧ (blank (Py.or_else html "") = true → clean_text html = "")
  ∧ (∀ st hit,
       blank (hit_raw hit) = true →
       hit_text hit = ""
       ∧ all_listings (process_hit st hit) = all_listings st
       ∧ hit_id hit ∈ seen_ids (process_hit st hit)).
Proof.
  assert (Hblank : ∀ h, blank (Py.or_else h "") = true → clean_text h = "").
  { intros h Hb. unfold clean_text, strip.
    rewrite (tagless_fixed _ (blank_tagless _ Hb)).
    by rewrite (lstrip_blank _ (sub_spaces_blank false _ Hb)). }
  split; [by apply Hblank|]. split; [apply Hblank|].
  intros st hit Hb.
  assert (Ht : hit_text hit = "").
  { rewrite hit_text_raw. apply Hblank. by rewrite or_else_some. }
  split; [done|]. split; [|apply process_hit_records].
  apply process_hit_unqualified, qualifies_false. left. by rewrite Ht.
Qed.

Lemma X5_blank_text_witness :
  clean_text (Some "   ") = ""
  ∧ all_listings (process_hit scan_start (Demo.bare "9")) = []
  ∧ "9" ∈ seen_ids (process_hit scan_start (Demo.bare "9")).
Proof.
  destruct (X5_blank_text (Some "   ")) as (_ & Hclean & Hhit).
  split; [apply Hclean; vm_compute; reflexivity|].
  destruct (Hhit scan_start (Demo.bare "9")) as (_ & Hl & Hs);
    [vm_compute; reflexivity|].
  split; [exact Hl | exact Hs].
Defined.

(** ** More on the scorer *)

Lemma lower_char_idemp (c : ascii) :
  Py.lower_char (Py.lower_char c) = Py.lower_char c.
Proof. destruct c as [[] [] [] [] [] [] [] []]; reflexivity. Qed.

Lemma lower_idemp (s : string) : Py.lower (Py.lower s) = Py.lower s.
Proof.
  induction s as [|c s IH]; [done|]. simpl. by rewrite lower_char_idemp, IH.
Qed.

Lemma matched_length (text : string) :
  (length (matched_skills text) ≤ 24)%nat.
Proof.
  rewrite matched_skills_filter.
  apply (sublist_length _ IAN_SKILLS), filter_sublist.
Qed.

Lemma any_in_spec (ws : list string) (s : string) :
  Py.any_in ws s = true ↔ ∃ w, w ∈ ws ∧ occurs_in w s.
Proof.
  unfold Py.any_in. rewrite existsb_exists. split.
  - intros (w & Hin & Hc). exists w.
    split; [by apply list_elem_of_In | by apply contains_spec].
  - intros (w & Hin & Hc). exists w.
    split; [by apply list_elem_of_In | by apply contains_spec].
Qed.

(** X6: the score is a multiple of 5 between 0 and 250, at most 24 skills
    are matched, and the score is the clamped sum of 10 per matched skill,
    5 for a senior marker, -10 for a junior marker and 5 for remote. *)
Theorem X6_score_range (text : string) :
  0 ≤ fst (score_listing text) ≤ 250
  ∧ (5 | fst (score_listing text))
  ∧ (length (snd (score_listing text)) ≤ 24)%nat
  ∧ fst (score_listing text)
    = Z.max 0
        (10 * Z.of_nat (length (snd (score_listing text)))
         + (if Py.any_in SENIOR_MARKERS (Py.lower text) then 5 else 0)
         - (if Py.any_in JUNIOR_MARKERS (Py.lower text) then 10 else 0)
         + (if Py.contains "remote" (Py.lower text) then 5 else 0)).
Proof.
  rewrite score_listing_fst, score_listing_snd.
  rewrite score_remote_eq, score_junior_eq, score_senior_eq.
  unfold score_skills. pose proof (matched_length text) as Hlen.
  set (n := Z.of_nat (length (matched_skills text))).
  assert (Hn : 0 ≤ n ≤ 24) by (unfold n; lia). clearbody n.
  split; [|split; [|split; [done | f_equal; lia]]].
  - destruct (Py.any_in SENIOR_MARKERS _), (Py.any_in JUNIOR_MARKERS _),
      (Py.contains "remote" _); lia.
  - assert (Hdiv : ∀ t, (5 | t) → (5 | Z.max 0 t)).
    { intros t Ht. destruct (Z.max_spec 0 t) as [[_ ->]|[_ ->]];
        [done | by exists 0]. }
    apply Hdiv.
    destruct (Py.any_in SENIOR_MARKERS _), (Py.any_in JUNIOR_MARKERS _),
      (Py.contains "remote" _);
      first [ exists (2 * n + 2); lia | exists (2 * n + 1); lia
            | exists (2 * n); lia | exists (2 * n - 1); lia
            | exists (2 * n - 2); lia ].
Qed.

(** X7: the scorer ignores the case of letters: two texts whose lower-case
    forms agree get the same score and the same matched skills, and a text
    scores as its own lower-case form. *)
Theorem X7_score_case_insensitive (text other : string) :
  score_listing (Py.lower text) = score_listing text
  ∧ (Py.lower text = Py.lower other →
     score_listing text = score_listing other).
Proof.
  split.
  - unfold score_listing, score_remote, score_junior, score_senior,
      score_skills, matched_skills. by rewrite lower_idemp.
  - intros Heq. unfold score_listing, score_remote, score_junior,
      score_senior, score_skills, matched_skills. by rewrite Heq.
Qed.

Lemma X7_score_case_insensitive_witness :
  score_listing "SENIOR PYTHON, Remote" = score_listing "senior Python, REMOTE".
Proof.
  apply (X7_score_case_insensitive "SENIOR PYTHON, Remote"
           "senior Python, REMOTE").
  vm_compute; reflexivity.
Defined.

(** X8: a text that names no skill as a whole word, holds no senior marker
    and does not hold remote scores 0 with no matched skill, with or
    without a junior marker; a positive score takes a matched skill, a
    senior marker or remote. *)
Theorem X8_nothing_to_score (text : string) :
  ((∀ skill, skill ∈ IAN_SKILLS → ¬ whole_word_in skill (Py.lower text)) →
   Py.any_in SENIOR_MARKERS (Py.lower text) = false →
   Py.contains "remote" (Py.lower text) = false →
   score_listing text = (0, []))
  ∧ (0 < fst (score_listing text) →
     snd (score_listing text) ≠ []
     ∨ Py.any_in SENIOR_MARKERS (Py.lower text) = true
     ∨ Py.contains "remote" (Py.lower text) = true).
Proof.
  split.
  - intros Hnone Hsenior Hremote.
    assert (Hm : matched_skills text = []).
    { destruct (matched_skills text) as [|skill m] eqn:Hm; [done|].
      assert (Hin : skill ∈ matched_skills text) by (rewrite Hm; left).
      apply elem_of_matched in Hin as [Hin Hw]. by destruct (Hnone skill). }
    unfold score_listing. rewrite score_remote_eq, score_junior_eq,
      score_senior_eq. unfold score_skills.
    rewrite Hm, Hsenior, Hremote.
    destruct (Py.any_in JUNIOR_MARKERS _); reflexivity.
  - rewrite score_listing_fst, score_listing_snd.
    rewrite score_remote_eq, score_junior_eq, score_senior_eq.
    unfold score_skills.
    destruct (matched_skills text) as [|skill m]; [|by left].
    change (Z.of_nat (length (@nil string)) * 10) with 0.
    destruct (Py.any_in SENIOR_MARKERS _); [by right; left|].
    destruct (Py.contains "remote" _); [by right; right|].
    destruct (Py.any_in JUNIOR_MARKERS _); lia.
Qed.

Lemma X8_nothing_to_score_witness :
  score_listing "We bake bread. Junior bakers welcome; sqlite, github."
  = (0, []).
Proof.
  apply (X8_nothing_to_score
           "We bake bread. Junior bakers welcome; sqlite, github.").
  - intros skill Hin.
    rewrite (skills_exactly _ []); [|vm_compute; reflexivity | exact Hin].
    apply not_elem_of_nil.
  - vm_compute; reflexivity.
  - vm_compute; reflexivity.
Defined.

(** X9: the seniority checks are substring tests on the lower-cased text:
    the senior bonus is added exactly when senior, lead or staff occurs
    anywhere in it, and the junior penalty exactly when junior, intern or
    entry does, be it inside a longer word. *)
Theorem X9_markers_are_substrings (text : string) :
  (score_senior text = score_skills text + 5
   ↔ occurs_in "senior" (Py.lower text) ∨ occurs_in "lead" (Py.lower text)
     ∨ occurs_in "staff" (Py.lower text))
  ∧ (score_junior text = score_senior text - 10
     ↔ occurs_in "junior" (Py.lower text)
       ∨ occurs_in "intern" (Py.lower text)
       ∨ occurs_in "entry" (Py.lower text))
  ∧ (∀ pre post,
       Py.lower text = pre +:+ "intern" +:+ post →
       score_junior text = score_senior text - 10).
Proof.
  assert (Hsenior : Py.any_in SENIOR_MARKERS (Py.lower text) = true
    ↔ occurs_in "senior" (Py.lower text) ∨ occurs_in "lead" (Py.lower text)
      ∨ occurs_in "staff" (Py.lower text)).
  { rewrite any_in_spec. unfold SENIOR_MARKERS. split.
    - intros (w & Hin & Hw). rewrite !elem_of_cons, elem_of_nil in Hin.
      naive_solver.
    - intros [H|[H|H]]; eexists; (split; [|exact H]);
        rewrite !elem_of_cons; tauto. }
  assert (Hjunior : Py.any_in JUNIOR_MARKERS (Py.lower text) = true
    ↔ occurs_in "junior" (Py.lower text) ∨ occurs_in "intern" (Py.lower text)
      ∨ occurs_in "entry" (Py.lower text)).
  { rewrite any_in_spec. unfold JUNIOR_MARKERS. split.
    - intros (w & Hin & Hw). rewrite !elem_of_cons, elem_of_nil in Hin.
      naive_solver.
    - intros [H|[H|H]]; eexists; (split; [|exact H]);
        rewrite !elem_of_cons; tauto. }
  rewrite <- Hsenior, <- Hjunior, score_junior_eq, score_senior_eq.
  split; [|split].
  - destruct (Py.any_in SENIOR_MARKERS _); split; intros H.
    + reflexivity.
    + lia.
    + exfalso. lia.
    + discriminate H.
  - destruct (Py.any_in JUNIOR_MARKERS (Py.lower text)); split; intros H.
    + reflexivity.
    + lia.
    + exfalso. lia.
    + discriminate H.
  - intros pre post Heq.
    assert (Hj : Py.any_in JUNIOR_MARKERS (Py.lower text) = true).
    { apply Hjunior. right. left. by exists pre, post. }
    by rewrite Hj.
Qed.

Lemma X9_markers_are_substrings_witness :
  score_junior "International Python team" 
  = score_senior "International Python team" - 10.
Proof.
  destruct (X9_markers_are_substrings "International Python team")
    as (_ & _ & H).
  apply (H "" "ational python team"). vm_compute; reflexivity.
Defined.

(** ** More on the ranker *)

Lemma insert_desc_front (x : Listing.t) (l : list Listing.t) :
  Forall (desc x) l → insert_desc x l = x :: l.
Proof.
  destruct l as [|y l]; [done|]. intros [Hy _]%Forall_cons. simpl.
  unfold desc in Hy. by rewrite (proj2 (Z.ltb_ge _ _) Hy).
Qed.

Lemma sort_desc_sorted_fixed (l : list Listing.t) :
  StronglySorted desc l → sort_desc l = l.
Proof.
  induction l as [|x l IH]; [done|].
  intros [Hx Hl]%StronglySorted_cons. simpl.
  fold (sort_desc l). rewrite (IH Hl). by apply insert_desc_front.
Qed.

Lemma take_sort_desc_sorted (n : nat) (l : list Listing.t) :
  StronglySorted desc (take n (sort_desc l)).
Proof.
  apply (StronglySorted_app_1_l desc _ (drop n (sort_desc l))).
  rewrite take_drop. apply sort_desc_sorted.
Qed.

(** X10: ranking is idempotent. A list that is already in descending order
    of score is left as it is by the sort, sorting twice is sorting once,
    and ranking the ranked output again with the same non-negative
    top-count returns it unchanged. *)
Theorem X10_rank_idempotent (top : Z) (listings : list Listing.t) :
  (StronglySorted desc listings → sort_desc listings = listings)
  ∧ sort_desc (sort_desc listings) = sort_desc listings
  ∧ (0 ≤ top → rank top (rank top listings) = rank top listings).
Proof.
  split; [apply sort_desc_sorted_fixed|].
  split; [apply sort_desc_sorted_fixed, sort_desc_sorted|].
  intros Htop. unfold rank. rewrite !slice_to_nonneg by done.
  rewrite (sort_desc_sorted_fixed _ (take_sort_desc_sorted _ _)).
  by rewrite take_take, Nat.min_id.
Qed.

Lemma X10_rank_idempotent_witness :
  rank 3 (rank 3 Sample.ten_candidates) = rank 3 Sample.ten_candidates
  ∧ sort_desc [Sample.candidate "a" 30; Sample.candidate "b" 30;
               Sample.candidate "c" 10]
    = [Sample.candidate "a" 30; Sample.candidate "b" 30;
       Sample.candidate "c" 10].
Proof.
  destruct (X10_rank_idempotent 3 Sample.ten_candidates) as (_ & _ & H).
  split; [apply H; lia|].
  apply (X10_rank_idempotent 0).
  repeat (apply StronglySorted_cons; split;
          [repeat (apply Forall_cons; split; [vm_compute; discriminate|]);
           apply Forall_nil_2|]).
  constructor.
Defined.

(** X11: the top-count is taken as Python slices take it. A top-count of 0
    gives no result, one that reaches the number of candidates gives the
    whole ranking, and a negative one drops that many candidates from the
    end of the ranking; the output never has more listings than there are
    candidates. *)
Theorem X11_top_count_bounds (top : Z) (listings : list Listing.t) :
  (top < 0 →
   rank top listings
   = take (length listings - Z.to_nat (- top)) (sort_desc listings))
  ∧ (top = 0 → rank top listings = [])
  ∧ (Z.of_nat (length listings) ≤ top →
     rank top listings = sort_desc listings)
  ∧ (length (rank top listings) ≤ length listings)%nat.
Proof.
  assert (Hlen : length (sort_desc listings) = length listings)
    by by rewrite sort_desc_perm.
  unfold rank. split; [|split; [|split]].
  - intros Htop. unfold Py.slice_to.
    rewrite (proj2 (Z.leb_gt 0 top)) by lia. rewrite Hlen. f_equal. lia.
  - by intros ->.
  - intros Htop. rewrite slice_to_nonneg by lia.
    apply take_ge. rewrite Hlen. lia.
  - rewrite <- Hlen. apply sublist_length, slice_to_sublist.
Qed.

Lemma X11_top_count_bounds_witness :
  Listing.id <$> rank (-8) Sample.ten_candidates = ["b"; "d"]
  ∧ rank 0 Sample.ten_candidates = []
  ∧ rank 10 Sample.ten_candidates = sort_desc Sample.ten_candidates.
Proof.
  destruct (X11_top_count_bounds (-8) Sample.ten_candidates) as (Hneg & _).
  destruct (X11_top_count_bounds 0 Sample.ten_candidates) as (_ & Hzero & _).
  destruct (X11_top_count_bounds 10 Sample.ten_candidates)
    as (_ & _ & Hall & _).
  split; [rewrite Hneg by lia; vm_compute; reflexivity|].
  split; [by apply Hzero | apply Hall; vm_compute; discriminate].
Defined.

(** ** More on a whole run *)

Lemma first_occurrences_sublist (seen : gset string) (hits : list Hit.t) :
  first_occurrences seen hits `sublist_of` hits.
Proof.
  revert seen. induction hits as [|h hits IH]; intros seen; simpl.
  - constructor.
  - destruct (decide (hit_id h ∈ seen)); by constructor.
Qed.

Lemma run_seen_ids (requests_get : string → Z → raising response)
    (limit : Z) (keywords : list string) :
  seen_ids (scan_keywords requests_get limit keywords)
  = list_to_set (hit_id <$> all_hits requests_get limit keywords).
Proof.
  unfold scan_keywords.
  destruct (scan_keywords_from requests_get limit keywords scan_start)
    as [-> _].
  rewrite process_hits_spec. simpl. set_solver.
Qed.

Lemma run_stderr (requests_get : string → Z → raising response)
    (limit : Z) (keywords : list string) (st : scan) :
  stderr (fold_left (scan_keyword requests_get limit) keywords st)
  = stderr st ++ all_warnings requests_get limit keywords.
Proof.
  revert st. induction keywords as [|k ks IH]; intros st.
  - simpl. by rewrite app_nil_r.
  - simpl fold_left. rewrite IH.
    destruct (scan_keyword_spec requests_get limit st k) as (_ & _ & ->).
    unfold all_warnings. simpl. by rewrite app_assoc.
Qed.

Lemma fetch_outcome (requests_get : string → Z → raising response)
    (query : string) (limit : Z) :
  (∃ hits, try_fetch requests_get query limit = Return hits
           ∧ fetch_hn_jobs requests_get query limit = (hits, []))
  ∨ (∃ e, try_fetch requests_get query limit = Raise e
          ∧ fetch_hn_jobs requests_get query limit
            = ([], [warning query e])).
Proof.
  unfold fetch_hn_jobs.
  destruct (try_fetch requests_get query limit) as [hits|e]; eauto.
Qed.

Lemma prefix_of_length (n : nat) (s : string) :
  String.length (Py.prefix_of n s) = (n `min` String.length s)%nat.
Proof.
  revert s. induction n as [|n IH]; intros [|c s]; simpl; try done.
  by rewrite IH.
Qed.

Lemma prefix_of_prefix (n : nat) (s : string) :
  ∃ rest, s = Py.prefix_of n s +:+ rest.
Proof.
  revert s. induction n as [|n IH]; intros [|c s]; simpl; eauto.
  destruct (IH s) as [rest Hrest]. exists rest. by rewrite <- Hrest.
Qed.

Lemma make_listing_fields (hit : Hit.t) :
  make_listing hit
  = {| Listing.id := hit_id hit;
       Listing.score := fst (score_listing (hit_text hit));
       Listing.matched_skills := snd (score_listing (hit_text hit));
       Listing.snippet := Py.prefix_of 300 (hit_text hit);
       Listing.url := build_hn_url (hit_id hit);
       Listing.author := default "" (Hit.author hit);
       Listing.created_at := default "" (Hit.created_at hit) |}.
Proof. unfold make_listing. by destruct (score_listing _). Qed.

Lemma positive_score_bounds (text : string) :
  0 < fst (score_listing text) → 5 ≤ fst (score_listing text) ≤ 250.
Proof.
  rewrite score_listing_fst, score_remote_eq, score_junior_eq,
    score_senior_eq.
  unfold score_skills. pose proof (matched_length text) as Hlen.
  set (n := Z.of_nat (length (matched_skills text))).
  assert (Hn : 0 ≤ n ≤ 24) by (unfold n; lia). clearbody n.
  destruct (Py.any_in SENIOR_MARKERS _), (Py.any_in JUNIOR_MARKERS _),
    (Py.contains "remote" _); lia.
Qed.

#[local] Instance build_hn_url_inj : Inj (=) (=) build_hn_url.
Proof. unfold build_hn_url. apply _. Qed.

(** X12: the listings that a run collects are, in the order of the fetch,
    the listings of the hits that are the first of their identifier and
    pass both filters; [seen_ids] ends as the set of the identifiers of all
    the hits fetched. *)
Theorem X12_run_closed_form
    (requests_get : string → Z → raising response)
    (keywords : list string) (limit : Z) :
  all_listings (scan_keywords requests_get limit keywords)
  = make_listing <$>
      List.filter qualifies
        (first_occurrences ∅ (all_hits requests_get limit keywords))
  ∧ all_listings (scan_keywords requests_get limit keywords)
    `sublist_of` (make_listing <$> all_hits requests_get limit keywords)
  ∧ seen_ids (scan_keywords requests_get limit keywords)
    = list_to_set (hit_id <$> all_hits requests_get limit keywords)
  ∧ (length (all_listings (scan_keywords requests_get limit keywords))
     ≤ length (all_hits requests_get limit keywords))%nat.
Proof.
  assert (Hsub :
    all_listings (scan_keywords requests_get limit keywords)
    `sublist_of` (make_listing <$> all_hits requests_get limit keywords)).
  { rewrite run_listings. apply fmap_sublist.
    etrans; [apply filter_sublist | apply first_occurrences_sublist]. }
  split; [apply run_listings|]. split; [done|].
  split; [apply run_seen_ids|].
  apply sublist_length in Hsub. by rewrite length_fmap in Hsub.
Qed.

(** X13: every listing of the output is built from a fetched hit: its score
    is the score of the normalized text of the hit and lies between 5 and
    250, its skills are those matched in that text, its snippet is the
    beginning of that text, 50 to 300 characters long, and its URL is the
    item URL of its identifier. *)
Theorem X13_listing_fields
    (requests_get : string → Z → raising response)
    (keywords : list string) (limit top : Z) (l : Listing.t) :
  l ∈ top_results requests_get keywords limit top →
  ∃ hit,
    hit ∈ all_hits requests_get limit keywords
    ∧ Listing.id l = hit_id hit
    ∧ Listing.score l = fst (score_listing (hit_text hit))
    ∧ 5 ≤ Listing.score l ≤ 250
    ∧ Listing.matched_skills l = snd (score_listing (hit_text hit))
    ∧ (∃ rest, hit_text hit = Listing.snippet l +:+ rest)
    ∧ 50 ≤ Py.len (Listing.snippet l) ≤ 300
    ∧ Listing.url l = build_hn_url (Listing.id l)
    ∧ Listing.author l = default "" (Hit.author hit)
    ∧ Listing.created_at l = default "" (Hit.created_at hit).
Proof.
  intros (hit & Hfirst & Hq & ->)%rank_elem_of%run_listing_origin.
  apply first_with_id_elem_of in Hfirst as [Hin _].
  exists hit. rewrite make_listing_fields.
  cbn [Listing.id Listing.score Listing.matched_skills Listing.snippet
       Listing.url Listing.author Listing.created_at].
  apply andb_true_iff in Hq as [Hlong%Z.leb_le Hpos%Z.ltb_lt].
  split; [done|]. split; [done|]. split; [done|].
  split; [by apply positive_score_bounds|]. split; [done|].
  split; [apply prefix_of_prefix|]. split; [|done].
  unfold Py.len in *. rewrite prefix_of_length. lia.
Qed.

Lemma X13_listing_fields_witness :
  ∃ hit,
    hit ∈ all_hits Sample.net_failing default_limit KEYWORDS
    ∧ Listing.id (make_listing (Sample.comment "1" Sample.good_text))
      = hit_id hit.
Proof.
  destruct (X13_listing_fields Sample.net_failing KEYWORDS default_limit
              default_top (make_listing (Sample.comment "1" Sample.good_text)))
    as (hit & Hin & Hid & _).
  - vm_compute. left.
  - by exists hit.
Defined.

(** X14: distinct identifiers give distinct item URLs, and no two listings
    of the output share a URL. *)
Theorem X14_urls_unique
    (requests_get : string → Z → raising response)
    (keywords : list string) (limit top : Z) :
  (∀ a b, build_hn_url a = build_hn_url b → a = b)
  ∧ NoDup (Listing.url <$> top_results requests_get keywords limit top).
Proof.
  split; [intros a b; apply (inj build_hn_url)|].
  assert (Hurl :
    Listing.url <$> top_results requests_get keywords limit top
    = build_hn_url <$>
        (Listing.id <$> top_results requests_get keywords limit top)).
  { rewrite <- list_fmap_compose. apply Forall_fmap_ext, Forall_forall.
    intros l (hit & _ & _ & ->)%rank_elem_of%run_listing_origin.
    unfold compose. by rewrite make_listing_url, make_listing_id. }
  rewrite Hurl. apply (NoDup_fmap_2 build_hn_url).
  apply rank_NoDup, run_listings_NoDup.
Qed.

Lemma process_hits_all_seen (st : scan) (hits : list Hit.t) :
  (∀ hit, hit ∈ hits → hit_id hit ∈ seen_ids st) →
  process_hits st hits = st.
Proof.
  induction hits as [|h hits IH]; [done|]. intros Hseen.
  rewrite process_hits_cons, process_hit_seen by (apply Hseen; by left).
  apply IH. intros hit Hin. apply Hseen. by right.
Qed.

(** X15: hits whose identifiers are all seen leave the state of the loop
    as it is; so a batch of hits that comes back a second time, for another
    keyword, changes nothing. *)
Theorem X15_seen_hits_change_nothing (st : scan) (hits : list Hit.t) :
  ((∀ hit, hit ∈ hits → hit_id hit ∈ seen_ids st) →
   process_hits st hits = st)
  ∧ process_hits (process_hits st hits) hits = process_hits st hits
  ∧ process_hits st (hits ++ hits) = process_hits st hits.
Proof.
  assert (Hagain :
    process_hits (process_hits st hits) hits = process_hits st hits).
  { apply process_hits_all_seen. intros hit Hin.
    rewrite process_hits_spec. simpl.
    apply elem_of_union_r, elem_of_list_to_set.
    by apply list_elem_of_fmap_2. }
  split; [apply process_hits_all_seen|]. split; [done|].
  by rewrite process_hits_app.
Qed.

Lemma X15_seen_hits_change_nothing_witness :
  process_hits
    (process_hits scan_start [Sample.comment "1" Sample.good_text])
    [Sample.comment "1" Sample.text50]
  = process_hits scan_start [Sample.comment "1" Sample.good_text].
Proof.
  destruct (X15_seen_hits_change_nothing
              (process_hits scan_start [Sample.comment "1" Sample.good_text])
              [Sample.comment "1" Sample.text50]) as [H _].
  apply H. intros hit ->%list_elem_of_singleton.
  rewrite process_hits_spec. apply elem_of_union_r, elem_of_list_to_set.
  apply list_elem_of_singleton. reflexivity.
Defined.

(** X16: what a run prints on the error stream is one warning for each
    keyword whose fetch fails, in the order of the keywords, and nothing
    else. When every fetch fails the run collects nothing and reports
    nothing, with one warning per keyword; without keywords nothing
    happens at all. *)
Theorem X16_warnings
    (requests_get : string → Z → raising response)
    (keywords : list string) (limit top : Z) :
  stderr (scan_keywords requests_get limit keywords)
  = all_warnings requests_get limit keywords
  ∧ (length (stderr (scan_keywords requests_get limit keywords))
     ≤ length keywords)%nat
  ∧ scan_keywords requests_get limit [] = scan_start
  ∧ ((∀ keyword, keyword ∈ keywords →
        ∃ e, try_fetch requests_get keyword limit = Raise e) →
     all_listings (scan_keywords requests_get limit keywords) = []
     ∧ top_results requests_get keywords limit top = []
     ∧ length (stderr (scan_keywords requests_get limit keywords))
       = length keywords).
Proof.
  assert (Hst : stderr (scan_keywords requests_get limit keywords)
                = all_warnings requests_get limit keywords)
    by apply (run_stderr requests_get limit keywords scan_start).
  rewrite Hst. split; [done|]. split; [|split; [done|]].
  - clear Hst. unfold all_warnings.
    induction keywords as [|k ks IH]; [done|]. simpl.
    rewrite length_app.
    destruct (fetch_outcome requests_get k limit)
      as [(hits & _ & ->)|(e & _ & ->)]; simpl; lia.
  - intros Hfail.
    assert (Hhits : all_hits requests_get limit keywords = []).
    { clear Hst. unfold all_hits.
      induction keywords as [|k ks IH]; [done|]. simpl.
      destruct (Hfail k) as [e He]; [by left|].
      unfold fetch_hn_jobs at 1. rewrite He. simpl. apply IH.
      intros k' Hk'. apply Hfail. by right. }
    assert (Hl : all_listings (scan_keywords requests_get limit keywords)
                 = [])
      by by rewrite run_listings, Hhits.
    split; [done|]. split.
    { unfold top_results, rank, Py.slice_to. rewrite Hl. simpl sort_desc.
      destruct (0 <=? top); apply take_nil. }
    clear Hst Hhits Hl. unfold all_warnings.
    induction keywords as [|k ks IH]; [done|]. simpl.
    destruct (Hfail k) as [e He]; [by left|].
    unfold fetch_hn_jobs at 1. rewrite He. simpl. f_equal. apply IH.
    intros k' Hk'. apply Hfail. by right.
Qed.

Lemma X16_warnings_witness :
  top_results Demo.net_down KEYWORDS default_limit default_top = []
  ∧ length (stderr (scan_keywords Demo.net_down default_limit KEYWORDS))
    = 5%nat.
Proof.
  destruct (X16_warnings Demo.net_down KEYWORDS default_limit default_top)
    as (_ & _ & _ & H).
  destruct H as (_ & Htop & Hlen).
  - intros keyword _. exists "Connection refused". reflexivity.
  - split; [exact Htop | exact Hlen].
Defined.

Lemma X14_urls_unique_witness : "42" = "42".
Proof.
  apply (X14_urls_unique Demo.net_down KEYWORDS default_limit default_top).
  reflexivity.
Defined.
